(** * dogtrails: the trail search client (public/app.js)

    A shallow embedding of the browser script: the query builder
    [buildQuery], the label and card formatting of [renderTrails], and the
    request flow of [fetchTrails], together with the properties that the
    specification states about them.

    Conventions.
    - A JavaScript string is a [string]: the bytes of its UTF-8 encoding,
      which is what [URLSearchParams] serialises.
    - [FormData] and [URLSearchParams] are entry lists: order and repeated
      names matter to [get], [set] and [toString].
    - The page (the four elements looked up at the top of the script) and
      the network are explicit state, threaded by a small state and
      exception monad. *)

From Stdlib Require Import List String Ascii Bool ZArith NArith Lia.
From Stdlib Require Import DecimalString SpecFloat.
From Stdlib Require DecimalPos DecimalN.
Import ListNotations.
Local Open Scope string_scope.

(** ** Strings and decimal numerals *)

(** JavaScript truthiness of a string: every string but the empty one. *)
Definition truthy (s : string) : bool :=
  match s with
  | EmptyString => false
  | String _ _ => true
  end.

(** The decimal digits of a natural number, as an integer is printed. *)
Definition decimal (n : N) : string :=
  NilEmpty.string_of_uint (N.to_uint n).

Definition is_digit (c : ascii) : bool :=
  let n := N_of_ascii c in ((48 <=? n) && (n <=? 57))%N.

Fixpoint all_digits (s : string) : bool :=
  match s with
  | EmptyString => true
  | String c r => is_digit c && all_digits r
  end.

(** The double quote and the line feed, which the templates contain. *)
Definition dq : string := String (ascii_of_nat 34) EmptyString.
Definition nl : string := String (ascii_of_nat 10) EmptyString.

(** ** FormData *)

Module FormData.

(** The entry list of [new FormData(form)]: one (name, value) pair per
    successful control, in tree order.  The controls of the trail form are
    selects and text inputs, so every value is a string. *)
Definition t := list (string * string).

(** [data.get(name)]: the value of the first entry called [name], [None]
    standing for [null]. *)
Fixpoint get (data : t) (name : string) : option string :=
  match data with
  | [] => None
  | (k, v) :: rest => if String.eqb k name then Some v else get rest name
  end.

(** [data.entries()] iterates the list in order. *)
Definition entries (data : t) : list (string * string) := data.

End FormData.

(** ** URLSearchParams *)

Module URLSearchParams.

Definition t := list (string * string).

(** [new URLSearchParams()]. *)
Definition new : t := [].

Definition named (name : string) (p : string * string) : bool :=
  String.eqb (fst p) name.

(** [params.set(name, value)]: the first tuple called [name] takes the value
    and the later ones are removed; with no such tuple, a new one is
    appended. *)
Fixpoint set (params : t) (name value : string) : t :=
  match params with
  | [] => [(name, value)]
  | p :: rest =>
      if named name p
      then (name, value) :: filter (fun q => negb (named name q)) rest
      else p :: set rest name value
  end.

(** [params.get(name)]: the value of the first tuple called [name]. *)
Fixpoint get (params : t) (name : string) : option string :=
  match params with
  | [] => None
  | (k, v) :: rest => if String.eqb k name then Some v else get rest name
  end.

(** The names of the parameters, in order. *)
Definition names (params : t) : list string := map fst params.

(** The bytes that the application/x-www-form-urlencoded serialiser leaves
    as they are: ASCII letters and digits, and [*], [-], [.], [_]. *)
Definition unreserved (c : ascii) : bool :=
  let n := N_of_ascii c in
  (((48 <=? n) && (n <=? 57)) || ((65 <=? n) && (n <=? 90))
   || ((97 <=? n) && (n <=? 122))
   || (n =? 42) || (n =? 45) || (n =? 46) || (n =? 95))%N.

(** One upper-case hexadecimal digit. *)
Definition hex_digit (n : N) : ascii :=
  ascii_of_N (if (n <? 10)%N then 48 + n else 55 + n)%N.

Definition percent_encode (c : ascii) : string :=
  let n := N_of_ascii c in
  String "%" (String (hex_digit (n / 16)) (String (hex_digit (n mod 16)) "")).

(** What the serialiser writes for one byte: [+] for a space, the byte
    itself when it is unreserved, its percent-encoding otherwise. *)
Definition serialize_byte (c : ascii) : string :=
  if Ascii.eqb c " " then "+"
  else if unreserved c then String c ""
  else percent_encode c.

Fixpoint serialize_bytes (s : string) : string :=
  match s with
  | EmptyString => EmptyString
  | String c r => serialize_byte c ++ serialize_bytes r
  end.

Definition serialize_tuple (p : string * string) : string :=
  serialize_bytes (fst p) ++ "=" ++ serialize_bytes (snd p).

(** [params.toString()]: the tuples as [name=value], joined by [&]. *)
Definition toString (params : t) : string :=
  String.concat "&" (map serialize_tuple params).

(** *** Reading a query string back

    The urlencoded parser, as [new URLSearchParams(query)] and the server
    read a query string.  It is how the properties below say which
    parameters a query string contains. *)

(** The pieces of [s] between the occurrences of [sep]. *)
Fixpoint split_on (sep : ascii) (s : string) : list string :=
  match s with
  | EmptyString => [EmptyString]
  | String c r =>
      if Ascii.eqb c sep then EmptyString :: split_on sep r
      else match split_on sep r with
           | [] => [String c EmptyString]
           | piece :: pieces => String c piece :: pieces
           end
  end.

(** [s] cut at its first [sep]; the second part is empty when there is
    none. *)
Fixpoint split_first (sep : ascii) (s : string) : string * string :=
  match s with
  | EmptyString => (EmptyString, EmptyString)
  | String c r =>
      if Ascii.eqb c sep then (EmptyString, r)
      else let (a, b) := split_first sep r in (String c a, b)
  end.

Fixpoint plus_to_space (s : string) : string :=
  match s with
  | EmptyString => EmptyString
  | String c r =>
      String (if Ascii.eqb c "+" then " "%char else c) (plus_to_space r)
  end.

Definition hex_value (c : ascii) : option N :=
  let n := N_of_ascii c in
  if ((48 <=? n) && (n <=? 57))%N then Some (n - 48)%N
  else if ((65 <=? n) && (n <=? 70))%N then Some (n - 55)%N
  else if ((97 <=? n) && (n <=? 102))%N then Some (n - 87)%N
  else None.

(** Percent-decoding: [%] followed by two hexadecimal digits is the byte
    they write; every other byte stands for itself. *)
Fixpoint percent_decode (s : string) : string :=
  match s with
  | EmptyString => EmptyString
  | String c r =>
      if Ascii.eqb c "%" then
        match r with
        | String a (String b r') =>
            match hex_value a, hex_value b with
            | Some x, Some y =>
                String (ascii_of_N (16 * x + y)) (percent_decode r')
            | _, _ => String c (percent_decode r)
            end
        | _ => String c (percent_decode r)
        end
      else String c (percent_decode r)
  end.

Definition parse_tuple (bytes : string) : string * string :=
  let (name, value) := split_first "=" bytes in
  (percent_decode (plus_to_space name), percent_decode (plus_to_space value)).

(** The tuples of a query string: one per non-empty piece between [&]. *)
Definition parse (query : string) : t :=
  map parse_tuple (filter truthy (split_on "&" query)).

End URLSearchParams.

(** ** The region table *)

(** The bounds of a region.  Every number of the table is written with at
    most two decimals, so a bound is kept as an integer number of hundredths
    of a degree: [-4135] is [-41.35]. *)
Record Bbox := mkBbox {
  min_lat : Z;
  min_lon : Z;
  max_lat : Z;
  max_lon : Z
}.

Definition regionBboxes : list (string * Bbox) :=
  [ ("wellington", mkBbox (-4135) 17472 (-4124) 17482);
    ("auckland", mkBbox (-3693) 17463 (-3677) 17484);
    ("queenstown", mkBbox (-4508) 16856 (-4495) 16879);
    ("christchurch", mkBbox (-4360) 17250 (-4345) 17277) ].

(** The string-keyed properties that every object literal inherits from
    [Object.prototype] in a browser. *)
Definition Object_prototype_keys : list string :=
  [ "constructor"; "hasOwnProperty"; "isPrototypeOf"; "propertyIsEnumerable";
    "toLocaleString"; "toString"; "valueOf"; "__proto__";
    "__defineGetter__"; "__defineSetter__"; "__lookupGetter__";
    "__lookupSetter__" ].

(** What the property access [regionBboxes[region]] evaluates to: an entry
    of the table, a member inherited from the prototype (a function, or the
    prototype itself for [__proto__]), or [undefined]. *)
Inductive property :=
| Own (bbox : Bbox)
| Inherited
| Undefined.

(** The table's own entry for a key. *)
Fixpoint own_property (table : list (string * Bbox)) (key : string)
  : option Bbox :=
  match table with
  | [] => None
  | (k, b) :: rest => if String.eqb k key then Some b else own_property rest key
  end.

Definition regionBboxes_get (region : string) : property :=
  match own_property regionBboxes region with
  | Some b => Own b
  | None =>
      if existsb (String.eqb region) Object_prototype_keys
      then Inherited
      else Undefined
  end.

(** Truthiness of the looked-up value: objects and functions are truthy,
    [undefined] is not. *)
Definition property_truthy (p : property) : bool :=
  match p with
  | Own _ | Inherited => true
  | Undefined => false
  end.

(** One decimal digit as a character. *)
Definition digit_char (d : Z) : string :=
  String (ascii_of_N (48 + Z.to_N d)) "".

(** Number-to-string conversion of a number of hundredths: the sign, the
    integer part, and the fraction without trailing zeros, which is the
    shortest decimal that reads back to the same double ([-43.60] prints as
    [-43.6]). *)
Definition hundredths_toString (z : Z) : string :=
  let a := Z.abs z in
  let f := (a mod 100)%Z in
  (if (z <? 0)%Z then "-" else "")
  ++ decimal (Z.to_N (a / 100))
  ++ (if (f =? 0)%Z then ""
      else "." ++ digit_char (f / 10)
           ++ (if (f mod 10 =? 0)%Z then "" else digit_char (f mod 10))).

(** The string that [params.set(name, bbox.field)] stores: the number
    converted to a string, or the text [undefined] when [bbox] is an
    inherited member, which has no such field. *)
Definition bbox_field (bbox : property) (field : Bbox -> Z) : string :=
  match bbox with
  | Own b => hundredths_toString (field b)
  | Inherited | Undefined => "undefined"
  end.

(** ** buildQuery *)

(** The four [params.set] calls of the region branch. *)
Definition set_bbox (params : URLSearchParams.t) (bbox : property)
  : URLSearchParams.t :=
  let params := URLSearchParams.set params "min_lat" (bbox_field bbox min_lat) in
  let params := URLSearchParams.set params "min_lon" (bbox_field bbox min_lon) in
  let params := URLSearchParams.set params "max_lat" (bbox_field bbox max_lat) in
  URLSearchParams.set params "max_lon" (bbox_field bbox max_lon).

(** The body of the [for ... of data.entries()] loop. *)
Definition add_field (params : URLSearchParams.t) (entry : string * string)
  : URLSearchParams.t :=
  let (key, value) := entry in
  if String.eqb key "region" then params
  else if truthy value then URLSearchParams.set params key value
  else params.

(** [params] after the region branch, which the condition
    [region && regionBboxes[region]] guards. *)
Definition region_params (data : FormData.t) : URLSearchParams.t :=
  let params := URLSearchParams.new in
  let region := FormData.get data "region" in
  match region with
  | Some r =>
      if truthy r && property_truthy (regionBboxes_get r)
      then set_bbox params (regionBboxes_get r)
      else params
  | None => params
  end.

(** [params] as [buildQuery] has filled it when it calls [toString]: the
    region branch, then the loop over the entries. *)
Definition queryParams (data : FormData.t) : URLSearchParams.t :=
  fold_left add_field (FormData.entries data) (region_params data).

(** The string that [buildQuery] returns when [new FormData(form)] is
    [data]. *)
Definition query_of (data : FormData.t) : string :=
  URLSearchParams.toString (queryParams data).

(** ** Records of the API *)

Module Trail.

(** A trail as [response.json()] delivers it.  [distance_km] is a double;
    [elevation_m] is the integer number of metres the API sends;
    [dog_notes] is [None] when the property is absent or [null]. *)
Record t := mk {
  name : string;
  location : string;
  distance_km : spec_float;
  elevation_m : Z;
  difficulty : string;
  provider : string;
  dog_policy : string;
  dog_notes : option string;
  surface : string;
  map_url : string
}.

End Trail.

Module Provider.

Record t := mk {
  name : string;
  api_status : string;
  notes : string;
  website : string
}.

End Provider.

(** ** The page, the network and the monad of the script *)

(** What the script reads and writes of the four elements it looks up:
    the entries a [FormData] built from [form] has, [resultsEl.innerHTML],
    [resultCountEl.textContent] and [providersEl.innerHTML]. *)
Record Page := mkPage {
  form : FormData.t;
  results_innerHTML : string;
  resultCount_textContent : string;
  providers_innerHTML : string
}.

(** The body of a response, read as JSON. *)
Inductive Json :=
| TrailArray (trails : list Trail.t)
| ProviderArray (providers : list Provider.t).

(** An HTTP response: [json] is [None] when the body is not JSON. *)
Record Response := mkResponse {
  status : nat;
  statusText : string;
  json : option Json
}.

(** [response.ok]: the status is in the range 200 to 299. *)
Definition ok (response : Response) : bool :=
  (200 <=? status response)%nat && (status response <=? 299)%nat.

(** What the script does to the outside: a request, the reading of a
    response body. *)
Inductive event :=
| Fetch (url : string)
| ReadJson (url : string).

(** The state a call runs in: the page, the answer of the network to each
    URL ([None]: the request fails), and the events so far, latest last. *)
Record World := mkWorld {
  page : Page;
  network : string -> option Response;
  log : list event
}.

(** A call returns a value or throws, in a new state. *)
Inductive Outcome (A : Type) :=
| Returned (a : A) (w : World)
| Thrown (w : World).

Arguments Returned {A} a w.
Arguments Thrown {A} w.

Definition M (A : Type) : Type := World -> Outcome A.

Definition ret {A : Type} (a : A) : M A := fun w => Returned a w.

Definition bind {A B : Type} (m : M A) (k : A -> M B) : M B :=
  fun w =>
    match m w with
    | Returned a w' => k a w'
    | Thrown w' => Thrown w'
    end.

Notation "x <- m ;; k" := (bind m (fun x => k))
  (at level 61, m at next level, right associativity).
Notation "m ;;; k" := (bind m (fun _ => k))
  (at level 61, right associativity).

Definition emit (e : event) : M unit :=
  fun w => Returned tt (mkWorld (page w) (network w) (log w ++ [e])).

Definition update_page (f : Page -> Page) : M unit :=
  fun w => Returned tt (mkWorld (f (page w)) (network w) (log w)).

(** [new FormData(form)]. *)
Definition new_FormData : M FormData.t :=
  fun w => Returned (form (page w)) w.

(** [resultsEl.innerHTML = html]. *)
Definition set_results_innerHTML (html : string) : M unit :=
  update_page (fun p =>
    mkPage (form p) html (resultCount_textContent p) (providers_innerHTML p)).

(** [resultCountEl.textContent = text]. *)
Definition set_resultCount_textContent (text : string) : M unit :=
  update_page (fun p =>
    mkPage (form p) (results_innerHTML p) text (providers_innerHTML p)).

(** [providersEl.innerHTML = html]. *)
Definition set_providers_innerHTML (html : string) : M unit :=
  update_page (fun p =>
    mkPage (form p) (results_innerHTML p) (resultCount_textContent p) html).

(** [await fetch(url)]: the response, or a rejection when the request
    fails. *)
Definition fetch (url : string) : M (string * Response) :=
  emit (Fetch url) ;;;
  fun w =>
    match network w url with
    | Some response => Returned (url, response) w
    | None => Thrown w
    end.

(** [await response.json()], read as an array of trails: it throws on a
    body that is not JSON.  The empty array is [TrailArray []].  On JSON
    of another shape the model stops here, where the script goes on with
    fields that are [undefined]; nothing below is stated for such a
    body. *)
Definition json_trails (response : string * Response) : M (list Trail.t) :=
  emit (ReadJson (fst response)) ;;;
  fun w =>
    match json (snd response) with
    | Some (TrailArray trails) => Returned trails w
    | _ => Thrown w
    end.

(** The same for an array of providers: on JSON of another shape the
    model stops, where the script renders the missing fields as the text
    [undefined]. *)
Definition json_providers (response : string * Response)
  : M (list Provider.t) :=
  emit (ReadJson (fst response)) ;;;
  fun w =>
    match json (snd response) with
    | Some (ProviderArray providers) => Returned providers w
    | _ => Thrown w
    end.

(** [buildQuery()]: it reads the form and returns the query string. *)
Definition buildQuery : M string :=
  data <- new_FormData ;;
  ret (query_of data).

(** ** Numbers as text *)

Definition sign_text (negative : bool) : string :=
  if negative then "-" else "".

(** An integer in decimal: what the template prints for [elevation_m]
    when its magnitude is at most 2^53.  A larger number of metres reaches
    the script rounded to a double, and is printed with an exponent from
    10^21 on; the model prints it in full. *)
Definition integer_toString (z : Z) : string :=
  sign_text (z <? 0)%Z ++ decimal (Z.abs_N z).

(** [bound <= m * 2^e]. *)
Definition at_least (m : positive) (e : Z) (bound : Z) : bool :=
  if (0 <=? e)%Z then (bound <=? Z.pos m * 2 ^ e)%Z
  else (bound * 2 ^ (- e) <=? Z.pos m)%Z.

(** The integer nearest to [m * 2^e * 10^f], the larger one when two are
    as near. *)
Definition nearest_scaled (m : positive) (e : Z) (f : nat) : Z :=
  let scaled := (Z.pos m * 10 ^ Z.of_nat f)%Z in
  if (0 <=? e)%Z then (scaled * 2 ^ e)%Z
  else ((2 * scaled + 2 ^ (- e)) / (2 * 2 ^ (- e)))%Z.

Fixpoint zeros (k : nat) : string :=
  match k with
  | O => EmptyString
  | S k' => String "0" (zeros k')
  end.

(** The digits of [n] with a point before the last [f] of them, and at
    least one digit before the point. *)
Definition fixed_digits (n : Z) (f : nat) : string :=
  let p := (10 ^ Z.of_nat f)%Z in
  let fraction := decimal (Z.to_N (n mod p)) in
  decimal (Z.to_N (n / p))
  ++ match f with
     | O => ""
     | S _ => "." ++ zeros (f - String.length fraction) ++ fraction
     end.

(** The double nearest to 7.96, which is what a JSON body that writes
    [7.96] is read to: 8962163258467287 * 2^-50. *)
Definition double_7_96 : spec_float :=
  S754_finite false 8962163258467287 (-50).

(** A sign, digits, a point and one digit: a number printed to one decimal
    place. *)
Fixpoint digits_point_digit (s : string) (seen : bool) : bool :=
  match s with
  | EmptyString => false
  | String c r =>
      if is_digit c then digits_point_digit r true
      else if Ascii.eqb c "." then
        seen && match r with
                | String d EmptyString => is_digit d
                | _ => false
                end
      else false
  end.

Definition one_decimal_place (s : string) : bool :=
  match s with
  | EmptyString => false
  | String c r =>
      if Ascii.eqb c "-" then digits_point_digit r false
      else digits_point_digit s false
  end.

(** The doubles that [toFixed] prints in fixed notation: the finite ones
    below 10^21 in magnitude. *)
Definition fixed_notation (x : spec_float) : bool :=
  match x with
  | S754_zero _ => true
  | S754_finite _ m e => negb (at_least m e (10 ^ 21))
  | S754_infinity _ | S754_nan => false
  end.

(** ** Rendering *)

(** What [replaceAll("_", " ")] makes of one character. *)
Definition underscore_to_space (c : ascii) : ascii :=
  if Ascii.eqb c "_" then " "%char else c.

(** [value.replaceAll("_", " ")]. *)
Fixpoint formatLabel (value : string) : string :=
  match value with
  | EmptyString => EmptyString
  | String c r => String (underscore_to_space c) (formatLabel r)
  end.

Definition tag (text : string) : string :=
  "<span class=" ++ dq ++ "tag" ++ dq ++ ">" ++ text ++ "</span>".

Definition warning_div (text : string) : string :=
  "<div class=" ++ dq ++ "warning" ++ dq ++ ">" ++ text ++ "</div>".

(** The last interpolation of the card template: the warning block when
    [dog_policy !== "allowed"], with [dog_notes ?? ...] as its text. *)
Definition warning_block (trail : Trail.t) : string :=
  if negb (String.eqb (Trail.dog_policy trail) "allowed")
  then warning_div
         match Trail.dog_notes trail with
         | Some notes => notes
         | None => "Dog access has restrictions."
         end
  else "".

(** The count label of [renderTrails]. *)
Definition count_label (n : nat) : string :=
  decimal (N.of_nat n) ++ " route" ++ (if (n =? 1)%nat then "" else "s").

Section Client.

(** The digits that number-to-string conversion prints for the finite
    double [m * 2^e]: the shortest ones that read back to it.  The script
    reaches it only through [toFixed] on a distance of 10^21 or more. *)
Variable shortest_digits : positive -> Z -> string.

Definition Number_toString (x : spec_float) : string :=
  match x with
  | S754_zero _ => "0"
  | S754_infinity negative => sign_text negative ++ "Infinity"
  | S754_nan => "NaN"
  | S754_finite negative m e => sign_text negative ++ shortest_digits m e
  end.

(** [x.toFixed(fractionDigits)]. *)
Definition toFixed (x : spec_float) (fractionDigits : nat) : string :=
  match x with
  | S754_zero _ => fixed_digits 0 fractionDigits
  | S754_finite negative m e =>
      sign_text negative
      ++ (if at_least m e (10 ^ 21) then shortest_digits m e
          else fixed_digits (nearest_scaled m e fractionDigits) fractionDigits)
  | S754_infinity _ | S754_nan => Number_toString x
  end.

Definition distance_text (trail : Trail.t) : string :=
  toFixed (Trail.distance_km trail) 1 ++ " km".

Definition difficulty_label (trail : Trail.t) : string :=
  formatLabel (Trail.difficulty trail).

(** The card template up to its last interpolation. *)
Definition card_head (trail : Trail.t) : string :=
  nl ++ "      <article class=" ++ dq ++ "trail" ++ dq ++ ">"
  ++ nl ++ "        <h3>" ++ Trail.name trail ++ "</h3>"
  ++ nl ++ "        <div class=" ++ dq ++ "trail-meta" ++ dq ++ ">"
  ++ nl ++ "          " ++ tag (Trail.location trail)
  ++ nl ++ "          " ++ tag (distance_text trail)
  ++ nl ++ "          "
  ++ tag (integer_toString (Trail.elevation_m trail) ++ " m gain")
  ++ nl ++ "          " ++ tag (difficulty_label trail)
  ++ nl ++ "          " ++ tag (Trail.provider trail)
  ++ nl ++ "        </div>"
  ++ nl ++ "        <div class=" ++ dq ++ "trail-meta" ++ dq ++ ">"
  ++ nl ++ "          "
  ++ tag ("Dog policy: " ++ formatLabel (Trail.dog_policy trail))
  ++ nl ++ "          " ++ tag ("Surface: " ++ Trail.surface trail)
  ++ nl ++ "        </div>"
  ++ nl ++ "        <div>"
  ++ nl ++ "          <a href=" ++ dq ++ Trail.map_url trail ++ dq
  ++ " target=" ++ dq ++ "_blank" ++ dq
  ++ " rel=" ++ dq ++ "noreferrer" ++ dq ++ ">View map</a>"
  ++ nl ++ "        </div>"
  ++ nl ++ "        ".

Definition card_tail : string :=
  nl ++ "      </article>".

(** The template of one trail. *)
Definition card (trail : Trail.t) : string :=
  card_head trail ++ warning_block trail ++ card_tail.

(** [renderTrails(trails)]. *)
Definition renderTrails (trails : list Trail.t) : M unit :=
  set_results_innerHTML (String.concat "" (map card trails)) ;;;
  set_resultCount_textContent (count_label (List.length trails)).

(** The list item of one provider. *)
Definition provider_item (provider : Provider.t) : string :=
  nl ++ "      <li>"
  ++ nl ++ "        <strong>" ++ Provider.name provider ++ "</strong><br />"
  ++ nl ++ "        <span>" ++ Provider.api_status provider ++ "</span><br />"
  ++ nl ++ "        <em>" ++ Provider.notes provider ++ "</em><br />"
  ++ nl ++ "        <a href=" ++ dq ++ Provider.website provider ++ dq
  ++ " target=" ++ dq ++ "_blank" ++ dq
  ++ " rel=" ++ dq ++ "noreferrer" ++ dq ++ ">"
  ++ Provider.website provider ++ "</a>"
  ++ nl ++ "      </li>".

(** [fetchProviders()]. *)
Definition fetchProviders : M unit :=
  response <- fetch "/api/providers" ;;
  providers <- json_providers response ;;
  set_providers_innerHTML (String.concat "" (map provider_item providers)).

(** [fetchTrails()]. *)
Definition fetchTrails : M unit :=
  query <- buildQuery ;;
  response <- fetch ("/api/trails?" ++ query) ;;
  if negb (ok (snd response)) then
    set_results_innerHTML
      (warning_div
         ("Could not load live trails. " ++ statusText (snd response))) ;;;
    set_resultCount_textContent "0 routes"
  else
    trails <- json_trails response ;;
    renderTrails trails.

End Client.

(** ** What a form submits for a field *)

(** One step of [field_value]: a non-empty entry called [k] replaces what
    was found before. *)
Definition pick (k : string) (found : option string)
  (entry : string * string) : option string :=
  if String.eqb (fst entry) k && truthy (snd entry)
  then Some (snd entry)
  else found.

(** The non-empty value that [data] has for the field [k]: that of the last
    such entry when the name is repeated, [None] when there is none. *)
Definition field_value (data : FormData.t) (k : string) : option string :=
  fold_left (pick k) data None.

(** The names of the four bounds. *)
Definition bbox_keys : list string :=
  ["min_lat"; "min_lon"; "max_lat"; "max_lon"].

(** The four parameters that a table entry expands to. *)
Definition bbox_params (b : Bbox) : URLSearchParams.t :=
  [ ("min_lat", hundredths_toString (min_lat b));
    ("min_lon", hundredths_toString (min_lon b));
    ("max_lat", hundredths_toString (max_lat b));
    ("max_lon", hundredths_toString (max_lon b)) ].

(** [n] is the integer nearest to [num / den], the larger one on a tie. *)
Definition nearest_to (n num den : Z) : Prop :=
  (den * (2 * n - 1) <= 2 * num < den * (2 * n + 1))%Z.

(** Whether the byte [c] occurs in [s]. *)
Fixpoint occurs (c : ascii) (s : string) : bool :=
  match s with
  | EmptyString => false
  | String d r => Ascii.eqb d c || occurs c r
  end.

(** ** Sample inputs *)

(** A page whose form has the entries [data], before anything is rendered;
    a network that answers nothing. *)
Definition blank_page (data : FormData.t) : Page :=
  mkPage data "" "" "".

Definition offline (data : FormData.t) : World :=
  mkWorld (blank_page data) (fun _ => None) [].

Definition form_auckland : FormData.t :=
  [("region", "auckland"); ("effort", "steady"); ("dog", "")].

Definition form_wellington_own_bound : FormData.t :=
  [("region", "wellington"); ("min_lat", "0")].

Definition form_queenstown_own_bound : FormData.t :=
  [("min_lat", "-45"); ("region", "queenstown"); ("dog", "allowed")].

Definition form_atlantis : FormData.t :=
  [("region", "atlantis"); ("length", "short")].

Definition form_atlantis_own_bound : FormData.t :=
  [("region", "atlantis"); ("min_lat", "1")].

Definition form_inherited_region : FormData.t :=
  [("region", "constructor"); ("effort", "steady")].

Definition form_plain : FormData.t :=
  [("effort", "steady"); ("length", ""); ("dog", "allowed or partial")].

Definition world_rendered : World :=
  mkWorld (mkPage form_plain "<p>old</p>" "3 routes" "<li>old</li>")
          (fun _ => None) [Fetch "/api/providers"].

Definition trail_allowed : Trail.t :=
  Trail.mk "Loop" "Wellington" double_7_96 120 "moderate_effort" "DOC"
           "allowed" (Some "unused") "gravel" "https://example.org/1".

Definition trail_on_leash : Trail.t :=
  Trail.mk "Ridge" "Queenstown" (S754_finite false 5 (-1)) 300 "hard" "DOC"
           "on_leash" (Some "Dogs on a leash only.") "rock"
           "https://example.org/2".

Definition trail_restricted : Trail.t :=
  Trail.mk "Shore" "Auckland" (S754_zero false) 0 "easy" "Council"
           "partial" None "sand" "https://example.org/3".

(** A trail whose distance the body writes as [1e999], which is read as
    the double [Infinity]. *)
Definition trail_unbounded : Trail.t :=
  Trail.mk "Far" "Nowhere" (S754_infinity false) 0 "hard" "DOC"
           "allowed" None "rock" "https://example.org/4".

(** A network that answers 503 to every request, with a body that is not
    JSON. *)
Definition unavailable : Response :=
  mkResponse 503 "Service Unavailable" None.

Definition world_unavailable : World :=
  mkWorld (blank_page form_auckland) (fun _ => Some unavailable) [].

(** ** Further vocabulary *)

(** An entry that the loop of [buildQuery] forwards: it is not called
    [region] and its value is not empty. *)
Definition forwarded (entry : string * string) : bool :=
  negb (String.eqb (fst entry) "region") && truthy (snd entry).



(** The state in which a call ends, returned or thrown. *)
Definition final {A : Type} (o : Outcome A) : World :=
  match o with
  | Returned _ w => w
  | Thrown w => w
  end.

(** The two requests of the script. *)
Definition trails_url (w : World) : string :=
  "/api/trails?" ++ query_of (form (page w)).

Definition providers_url : string := "/api/providers".

(** The content that [renderTrails] gives the results element. *)
Definition cards (shortest_digits : positive -> Z -> string)
  (trails : list Trail.t) : string :=
  String.concat "" (map (card shortest_digits) trails).

(** The content that [fetchProviders] gives the providers element. *)
Definition provider_items (providers : list Provider.t) : string :=
  String.concat "" (map provider_item providers).

(** *** The first version of the query builder

    [buildQuery] as the script had it before the region table: every
    non-empty field is forwarded, [region] like the others. *)

Definition add_field_plain (params : URLSearchParams.t)
  (entry : string * string) : URLSearchParams.t :=
  let (key, value) := entry in
  if truthy value then URLSearchParams.set params key value else params.

Definition plain_query_of (data : FormData.t) : string :=
  URLSearchParams.toString
    (fold_left add_field_plain (FormData.entries data) URLSearchParams.new).

(** *** More sample inputs *)

Definition form_blank_region : FormData.t :=
  [("region", ""); ("effort", "steady"); ("dog", "")].

Definition form_symbols : FormData.t :=
  [("note", "a&b=c d+e%"); ("dog", "allowed")].

Definition provider_doc : Provider.t :=
  Provider.mk "DOC" "planned" "Department of Conservation"
              "https://www.doc.govt.nz".

(** A network that answers the trails request for [form_auckland] with two
    trails, and the providers request with status 500 and a provider in the
    body. *)
Definition network_live (url : string) : option Response :=
  if String.eqb url "/api/providers"
  then Some (mkResponse 500 "Internal Server Error"
               (Some (ProviderArray [provider_doc])))
  else Some (mkResponse 200 "OK"
               (Some (TrailArray [trail_allowed; trail_on_leash]))).

Definition world_live : World :=
  mkWorld (mkPage form_auckland "<p>old</p>" "3 routes" "<li>old</li>")
          network_live [].

(** A network on which every request fails, under a page that has
    rendered before. *)
Definition world_down : World :=
  mkWorld (mkPage form_auckland "<p>old</p>" "3 routes" "<li>old</li>")
          (fun _ => None) [].

(** A network that answers 200 with a body that is not JSON. *)
Definition world_garbled : World :=
  mkWorld (mkPage form_auckland "<p>old</p>" "3 routes" "<li>old</li>")
          (fun _ => Some (mkResponse 200 "OK" None)) [].

(** *** The states that the two fetches end in *)

(** [w] with more events in its log. *)
Definition logged (w : World) (events : list event) : World :=
  mkWorld (page w) (network w) (log w ++ events).

(** [w] with another page and more events. *)
Definition updated (w : World) (p : Page) (events : list event) : World :=
  mkWorld p (network w) (log w ++ events).

(** The page of [w] after [renderTrails(trails)]. *)
Definition page_with_trails (shortest_digits : positive -> Z -> string)
  (w : World) (trails : list Trail.t) : Page :=
  mkPage (form (page w)) (cards shortest_digits trails)
         (count_label (List.length trails)) (providers_innerHTML (page w)).

(** The page of [w] after the branch of [fetchTrails] for a response that
    is not ok. *)
Definition page_with_warning (w : World) (response : Response) : Page :=
  mkPage (form (page w))
         (warning_div ("Could not load live trails. " ++ statusText response))
         "0 routes" (providers_innerHTML (page w)).

(** The page of [w] after [fetchProviders] has rendered [providers]. *)
Definition page_with_providers (w : World) (providers : list Provider.t)
  : Page :=
  mkPage (form (page w)) (results_innerHTML (page w))
         (resultCount_textContent (page w)) (provider_items providers).

(** * Properties *)

(** ** Strings *)

Lemma truthy_true (s : string) : truthy s = true <-> s <> "".
Proof. destruct s; simpl; split; congruence. Qed.

Lemma append_empty_r (s : string) : s ++ "" = s.
Proof. induction s; simpl; congruence. Qed.

Lemma append_assoc (a b c : string) : (a ++ b) ++ c = a ++ b ++ c.
Proof. induction a; simpl; congruence. Qed.

(** ** URLSearchParams: [get] and [set] *)

Module ParamsFacts.
Import URLSearchParams.

Lemma get_filter_other (p : t) (k k' : string) :
  k <> k' -> get (filter (fun q => negb (named k q)) p) k' = get p k'.
Proof.
  intros Hk. unfold named.
  induction p as [|[n x] rest IH]; simpl; auto.
  destruct (String.eqb_spec n k) as [->|Hn]; simpl.
  - destruct (String.eqb_spec k k'); [contradiction | exact IH].
  - rewrite IH. reflexivity.
Qed.

Lemma get_set (p : t) (k v k' : string) :
  get (set p k v) k' = if String.eqb k k' then Some v else get p k'.
Proof.
  induction p as [|[n x] rest IH]; simpl; auto.
  unfold named; simpl.
  destruct (String.eqb_spec n k) as [->|Hn]; simpl.
  - destruct (String.eqb_spec k k') as [|Hk]; auto.
    apply get_filter_other; assumption.
  - rewrite IH.
    destruct (String.eqb_spec n k') as [->|]; auto.
    destruct (String.eqb_spec k k'); congruence.
Qed.

Lemma get_None (p : t) (k : string) :
  get p k = None <-> ~ In k (names p).
Proof.
  induction p as [|[n x] rest IH]; simpl.
  - tauto.
  - destruct (String.eqb_spec n k) as [->|Hn].
    + split; [discriminate | tauto].
    + rewrite IH. tauto.
Qed.

Lemma in_names (p : t) (k : string) :
  In k (names p) <-> exists v, get p k = Some v.
Proof.
  destruct (get p k) as [v|] eqn:E.
  - split; [eauto|]. intros _.
    destruct (in_dec string_dec k (names p)) as [|Hn]; auto.
    apply get_None in Hn. congruence.
  - apply get_None in E. split; [tauto|]. intros [v Hv]. discriminate.
Qed.

Lemma names_set (p : t) (k v k' : string) :
  In k' (names (set p k v)) <-> k' = k \/ In k' (names p).
Proof.
  rewrite !in_names. setoid_rewrite get_set.
  destruct (String.eqb_spec k k') as [->|Hk].
  - split; eauto.
  - split; [auto|]. intros [H|H]; [congruence | exact H].
Qed.

Lemma NoDup_names_filter (f : string * string -> bool) (p : t) :
  NoDup (names p) -> NoDup (names (filter f p)).
Proof.
  induction p as [|e rest IH]; simpl; auto.
  intros H. inversion H as [|? ? Hnot Hrest]; subst.
  destruct (f e); simpl; auto.
  constructor; auto.
  intros Hin. apply Hnot.
  unfold names in *. apply in_map_iff in Hin as [q [Hq Hin]].
  apply filter_In in Hin as [Hin _].
  apply in_map_iff. eauto.
Qed.

Lemma NoDup_names_set (p : t) (k v : string) :
  NoDup (names p) -> NoDup (names (set p k v)).
Proof.
  induction p as [|[n x] rest IH]; simpl; intros H.
  - constructor; [simpl; tauto | constructor].
  - inversion H as [|? ? Hnot Hrest]; subst.
    unfold named; simpl.
    destruct (String.eqb_spec n k) as [->|Hn]; simpl.
    + constructor; [|apply NoDup_names_filter; assumption].
      intros Hin. unfold names in Hin.
      apply in_map_iff in Hin as [q [Hq Hin]].
      apply filter_In in Hin as [_ Hin].
      unfold named in Hin. subst k.
      rewrite String.eqb_refl in Hin. discriminate.
    + constructor; auto.
      rewrite names_set. intros [E|Hin]; [congruence | contradiction].
Qed.

Lemma in_get (p : t) (k v : string) :
  NoDup (names p) -> (In (k, v) p <-> get p k = Some v).
Proof.
  induction p as [|[n x] rest IH]; simpl; intros H.
  - split; [tauto | discriminate].
  - inversion H as [|? ? Hnot Hrest]; subst.
    destruct (String.eqb_spec n k) as [->|Hn].
    + split.
      * intros [E|Hin]; [congruence|].
        exfalso. apply Hnot. apply in_map_iff. exists (k, v). auto.
      * intros E. left. congruence.
    + rewrite <- (IH Hrest). split; [|tauto].
      intros [E|Hin]; [congruence | exact Hin].
Qed.

Lemma set_app_fresh (p q : t) (k v : string) :
  ~ In k (names p) -> set (p ++ q)%list k v = (p ++ set q k v)%list.
Proof.
  induction p as [|[n x] rest IH]; simpl; intros H; auto.
  unfold named; simpl.
  destruct (String.eqb_spec n k) as [->|Hn]; [tauto|].
  rewrite IH; tauto.
Qed.

End ParamsFacts.

(** ** A query string reads back as the parameters it was written from *)

Module QueryStringFacts.
Import URLSearchParams.

Lemma occurs_app (c : ascii) (a b : string) :
  occurs c (a ++ b) = occurs c a || occurs c b.
Proof.
  induction a as [|d a IH]; simpl; auto.
  rewrite IH. apply orb_assoc.
Qed.

Ltac each_byte c :=
  destruct c as [[] [] [] [] [] [] [] []]; reflexivity.

Lemma serialize_byte_no_amp (c : ascii) :
  occurs "&" (serialize_byte c) = false.
Proof. each_byte c. Qed.

Lemma serialize_byte_no_eq (c : ascii) :
  occurs "=" (serialize_byte c) = false.
Proof. each_byte c. Qed.

Lemma serialize_bytes_no_amp (s : string) :
  occurs "&" (serialize_bytes s) = false.
Proof.
  induction s as [|c s IH]; simpl; auto.
  rewrite occurs_app, serialize_byte_no_amp, IH. reflexivity.
Qed.

Lemma serialize_bytes_no_eq (s : string) :
  occurs "=" (serialize_bytes s) = false.
Proof.
  induction s as [|c s IH]; simpl; auto.
  rewrite occurs_app, serialize_byte_no_eq, IH. reflexivity.
Qed.

Lemma decode_serialize_byte (c : ascii) (rest : string) :
  percent_decode (plus_to_space (serialize_byte c ++ rest))
  = String c (percent_decode (plus_to_space rest)).
Proof. each_byte c. Qed.

Lemma decode_serialize_bytes (s : string) :
  percent_decode (plus_to_space (serialize_bytes s)) = s.
Proof.
  induction s as [|c s IH]; simpl; auto.
  rewrite decode_serialize_byte, IH. reflexivity.
Qed.

Lemma split_first_app (sep : ascii) (a b : string) :
  occurs sep a = false ->
  split_first sep (a ++ String sep b) = (a, b).
Proof.
  induction a as [|d a IH]; simpl; intros H.
  - rewrite Ascii.eqb_refl. reflexivity.
  - apply orb_false_iff in H as [Hd Ha].
    rewrite Hd, (IH Ha). reflexivity.
Qed.

Lemma split_on_single (sep : ascii) (a : string) :
  occurs sep a = false -> split_on sep a = [a].
Proof.
  induction a as [|d a IH]; simpl; intros H; auto.
  apply orb_false_iff in H as [Hd Ha].
  rewrite Hd, (IH Ha). reflexivity.
Qed.

Lemma split_on_app (sep : ascii) (a b : string) :
  occurs sep a = false ->
  split_on sep (a ++ String sep b) = a :: split_on sep b.
Proof.
  induction a as [|d a IH]; simpl; intros H.
  - rewrite Ascii.eqb_refl. reflexivity.
  - apply orb_false_iff in H as [Hd Ha].
    rewrite Hd, (IH Ha). reflexivity.
Qed.

Lemma truthy_app_String (a b : string) (c : ascii) :
  truthy (a ++ String c b) = true.
Proof. destruct a; reflexivity. Qed.

Lemma serialize_tuple_no_amp (e : string * string) :
  occurs "&" (serialize_tuple e) = false.
Proof.
  unfold serialize_tuple. rewrite !occurs_app, !serialize_bytes_no_amp.
  reflexivity.
Qed.

Lemma parse_serialize_tuple (e : string * string) :
  parse_tuple (serialize_tuple e) = e.
Proof.
  destruct e as [n v]. unfold parse_tuple, serialize_tuple; simpl.
  rewrite split_first_app by apply serialize_bytes_no_eq.
  rewrite !decode_serialize_bytes. reflexivity.
Qed.

Lemma truthy_serialize_tuple (e : string * string) :
  truthy (serialize_tuple e) = true.
Proof. apply truthy_app_String. Qed.

Lemma parse_single (e : string * string) :
  parse (serialize_tuple e) = [e].
Proof.
  unfold parse.
  rewrite split_on_single by apply serialize_tuple_no_amp.
  cbn [filter]. rewrite truthy_serialize_tuple. cbn [map].
  rewrite parse_serialize_tuple. reflexivity.
Qed.

Lemma parse_more (e : string * string) (s : string) :
  parse (serialize_tuple e ++ String "&" s) = e :: parse s.
Proof.
  unfold parse.
  rewrite split_on_app by apply serialize_tuple_no_amp.
  cbn [filter]. rewrite truthy_serialize_tuple. cbn [map].
  rewrite parse_serialize_tuple. reflexivity.
Qed.

(** Parsing what [toString] wrote gives the parameters back, in order. *)
Lemma parse_toString (params : t) : parse (toString params) = params.
Proof.
  unfold toString.
  induction params as [|e rest IH]; [reflexivity|].
  destruct rest as [|e' rest].
  - apply parse_single.
  - change (String.concat "&" (map serialize_tuple (e :: e' :: rest)))
      with (serialize_tuple e
            ++ String "&" (String.concat "&" (map serialize_tuple (e' :: rest)))).
    rewrite parse_more, IH. reflexivity.
Qed.

End QueryStringFacts.

(** ** The loop of buildQuery *)

Module QueryFacts.
Import URLSearchParams ParamsFacts QueryStringFacts.

Lemma get_add_field (p : t) (e : string * string) (k : string) :
  k <> "region" -> get (add_field p e) k = pick k (get p k) e.
Proof.
  intros Hk. destruct e as [n v]. unfold add_field, pick; simpl.
  destruct (String.eqb_spec n "region") as [->|Hn].
  - destruct (String.eqb_spec "region" k); [congruence | reflexivity].
  - destruct (truthy v); [|rewrite andb_false_r; reflexivity].
    rewrite get_set, andb_true_r. reflexivity.
Qed.

Lemma get_loop (data : FormData.t) (p : t) (k : string) :
  k <> "region" ->
  get (fold_left add_field data p) k = fold_left (pick k) data (get p k).
Proof.
  intros Hk. revert p.
  induction data as [|e rest IH]; intros p; simpl; auto.
  rewrite IH, get_add_field by assumption. reflexivity.
Qed.

Lemma get_loop_region (data : FormData.t) (p : t) :
  get (fold_left add_field data p) "region" = get p "region".
Proof.
  revert p. induction data as [|[n v] rest IH]; intros p; simpl; auto.
  rewrite IH.
  destruct (String.eqb_spec n "region") as [->|Hn]; auto.
  destruct (truthy v); auto.
  rewrite get_set.
  destruct (String.eqb_spec n "region"); [contradiction | reflexivity].
Qed.

Lemma NoDup_loop (data : FormData.t) (p : t) :
  NoDup (names p) -> NoDup (names (fold_left add_field data p)).
Proof.
  revert p. induction data as [|[n v] rest IH]; intros p H; simpl; auto.
  apply IH.
  destruct (String.eqb n "region"); auto.
  destruct (truthy v); auto.
  apply NoDup_names_set; assumption.
Qed.

Lemma pick_fold (data : FormData.t) (k : string) (found : option string) :
  fold_left (pick k) data found
  = match field_value data k with
    | Some v => Some v
    | None => found
    end.
Proof.
  unfold field_value. revert found.
  induction data as [|e rest IH]; intros found; simpl; auto.
  rewrite (IH (pick k found e)), (IH (pick k None e)).
  destruct (fold_left (pick k) rest None); auto.
  unfold pick. destruct (String.eqb (fst e) k && truthy (snd e)); auto.
Qed.

Lemma field_value_cons (e : string * string) (rest : FormData.t) (k : string) :
  field_value (e :: rest) k
  = match field_value rest k with
    | Some v => Some v
    | None => pick k None e
    end.
Proof. unfold field_value at 1. simpl. apply pick_fold. Qed.

Lemma pick_Some (k v : string) (e : string * string) :
  pick k None e = Some v <-> e = (k, v) /\ v <> "".
Proof.
  destruct e as [n x]. unfold pick; simpl.
  destruct (String.eqb_spec n k) as [->|Hn]; simpl.
  - destruct x as [|c x]; simpl.
    + split; [discriminate|]. intros [E Hv]. congruence.
    + split.
      * intros E. inversion E; subst. split; [reflexivity | discriminate].
      * intros [E _]. congruence.
  - split; [discriminate|]. intros [E _]. congruence.
Qed.

Lemma field_value_Some (data : FormData.t) (k v : string) :
  field_value data k = Some v -> In (k, v) data /\ v <> "".
Proof.
  induction data as [|e rest IH]; [discriminate|].
  rewrite field_value_cons.
  destruct (field_value rest k) as [x|].
  - intros E. destruct (IH E). simpl. tauto.
  - intros E. apply pick_Some in E as [-> Hv]. simpl. tauto.
Qed.

Lemma field_value_None (data : FormData.t) (k : string) :
  field_value data k = None <-> forall v, In (k, v) data -> v = "".
Proof.
  induction data as [|e rest IH].
  - split; [intros _ v [] | reflexivity].
  - rewrite field_value_cons.
    destruct (field_value rest k) as [x|] eqn:E.
    + split; [discriminate|]. intros H.
      destruct (field_value_Some _ _ _ E) as [Hin Hx].
      exfalso. apply Hx, H. right. assumption.
    + destruct IH as [IH _]. specialize (IH eq_refl).
      split.
      * intros Hp v [->|Hin]; [|auto].
        destruct v as [|c v]; [reflexivity|].
        assert (pick k None (k, String c v) = Some (String c v)) as Hs
            by (apply pick_Some; split; [reflexivity | discriminate]).
        congruence.
      * intros H. destruct (pick k None e) as [v|] eqn:Ep; [|reflexivity].
        apply pick_Some in Ep as [-> Hv].
        exfalso. apply Hv, H. left. reflexivity.
Qed.

Lemma field_value_unique (data : FormData.t) (k v : string) :
  NoDup (map fst data) -> In (k, v) data -> v <> "" ->
  field_value data k = Some v.
Proof.
  intros Hnd Hin Hv.
  destruct (field_value data k) as [x|] eqn:E.
  - destruct (field_value_Some _ _ _ E) as [Hx _].
    f_equal. clear E Hv.
    induction data as [|[n y] rest IH]; [contradiction|].
    inversion Hnd as [|? ? Hnot Hrest]; subst.
    assert (forall z, In (n, z) rest -> False) as Hfresh.
    { intros z Hz. apply Hnot. apply in_map_iff. exists (n, z). auto. }
    destruct Hin as [E1|Hin]; destruct Hx as [E2|Hx]; try congruence.
    + inversion E1; subst. exfalso. eauto.
    + inversion E2; subst. exfalso. eauto.
    + auto.
  - rewrite field_value_None in E. exfalso. auto.
Qed.

Lemma FormData_get_None (data : FormData.t) (k : string) :
  FormData.get data k = None -> forall v, ~ In (k, v) data.
Proof.
  induction data as [|[n x] rest IH]; simpl; [tauto|].
  destruct (String.eqb_spec n k) as [->|Hn]; [discriminate|].
  intros H v [E|Hin]; [congruence | exact (IH H v Hin)].
Qed.

(** What the loop leaves under a name other than [region]: the value the
    form submits for it, or what the region branch had put there. *)
Lemma get_queryParams (data : FormData.t) (k : string) :
  k <> "region" ->
  get (queryParams data) k
  = match field_value data k with
    | Some v => Some v
    | None => get (region_params data) k
    end.
Proof.
  intros Hk. unfold queryParams, FormData.entries.
  rewrite get_loop by assumption. apply pick_fold.
Qed.

Lemma set_bbox_new (b : Bbox) : set_bbox new (Own b) = bbox_params b.
Proof. reflexivity. Qed.

Lemma region_params_cases (data : FormData.t) :
  region_params data = new
  \/ exists r, FormData.get data "region" = Some r
               /\ region_params data = set_bbox new (regionBboxes_get r).
Proof.
  unfold region_params.
  destruct (FormData.get data "region") as [r|]; auto.
  destruct (truthy r && property_truthy (regionBboxes_get r)); eauto.
Qed.

Lemma NoDup_region_params (data : FormData.t) :
  NoDup (names (region_params data)).
Proof.
  destruct (region_params_cases data) as [->|[r [_ ->]]].
  - constructor.
  - unfold set_bbox. repeat apply NoDup_names_set. constructor.
Qed.

Lemma region_params_no_region (data : FormData.t) :
  get (region_params data) "region" = None.
Proof.
  destruct (region_params_cases data) as [->|[r [_ ->]]]; reflexivity.
Qed.

Lemma NoDup_queryParams (data : FormData.t) :
  NoDup (names (queryParams data)).
Proof. apply NoDup_loop, NoDup_region_params. Qed.

(** [region] is never a parameter. *)
Lemma queryParams_no_region (data : FormData.t) :
  ~ In "region" (names (queryParams data)).
Proof.
  apply get_None. unfold queryParams, FormData.entries.
  rewrite get_loop_region. apply region_params_no_region.
Qed.

Lemma region_params_recognised (data : FormData.t) (r : string) (b : Bbox) :
  FormData.get data "region" = Some r -> r <> "" ->
  own_property regionBboxes r = Some b ->
  region_params data = bbox_params b.
Proof.
  intros Hget Hr Hown. unfold region_params, regionBboxes_get.
  rewrite Hget, Hown.
  apply truthy_true in Hr. rewrite Hr. reflexivity.
Qed.

Lemma region_params_unrecognised (data : FormData.t) (r : string) :
  FormData.get data "region" = Some r -> regionBboxes_get r = Undefined ->
  region_params data = new.
Proof.
  intros Hget Hund. unfold region_params. rewrite Hget, Hund.
  rewrite andb_false_r. reflexivity.
Qed.

Lemma bbox_key_not_region (k : string) : In k bbox_keys -> k <> "region".
Proof. simpl. intros [<-|[<-|[<-|[<-|[]]]]]; discriminate. Qed.

Lemma names_bbox_params (b : Bbox) : names (bbox_params b) = bbox_keys.
Proof. reflexivity. Qed.

(** The loop leaves a prefix alone when the form submits nothing under
    its names. *)
Lemma loop_app_fresh (data : FormData.t) (p q : t) :
  (forall k, In k (names p) -> field_value data k = None) ->
  fold_left add_field data (p ++ q)%list
  = (p ++ fold_left add_field data q)%list.
Proof.
  revert q. induction data as [|[n v] rest IH]; intros q H; simpl; auto.
  assert (forall k, In k (names p) -> field_value rest k = None) as Hrest.
  { intros k Hk. specialize (H k Hk). rewrite field_value_cons in H.
    destruct (field_value rest k); [discriminate | reflexivity]. }
  destruct (String.eqb n "region"); [apply IH; assumption|].
  destruct (truthy v) eqn:Hv; [|apply IH; assumption].
  rewrite set_app_fresh; [apply IH; assumption|].
  intros Hin. specialize (H n Hin). rewrite field_value_cons in H.
  destruct (field_value rest n); [discriminate|].
  unfold pick in H; simpl in H.
  rewrite String.eqb_refl, Hv in H. discriminate.
Qed.

End QueryFacts.

(** ** The query builder

    A query string is observed through [URLSearchParams.parse]: the
    parameters of [query_of data] are the tuples of
    [parse (query_of data)]. *)

Import URLSearchParams ParamsFacts QueryStringFacts QueryFacts.

Example query_of_auckland :
  query_of form_auckland
  = "min_lat=-36.93&min_lon=174.63&max_lat=-36.77&max_lon=174.84&effort=steady".
Proof. reflexivity. Qed.

(** The bounds of the four regions as the query string writes them. *)
Example bounds_of_the_table :
  map (fun entry => toString (bbox_params (snd entry))) regionBboxes
  = [ "min_lat=-41.35&min_lon=174.72&max_lat=-41.24&max_lon=174.82";
      "min_lat=-36.93&min_lon=174.63&max_lat=-36.77&max_lon=174.84";
      "min_lat=-45.08&min_lon=168.56&max_lat=-44.95&max_lon=168.79";
      "min_lat=-43.6&min_lon=172.5&max_lat=-43.45&max_lon=172.77" ].
Proof. reflexivity. Qed.

Example query_of_plain :
  query_of form_plain = "effort=steady&dog=allowed+or+partial".
Proof. reflexivity. Qed.

(** A region that names a member inherited from [Object.prototype] passes
    the guard, and the four bounds are written as the text [undefined]. *)
Example query_of_inherited_region :
  own_property regionBboxes "constructor" = None
  /\ query_of form_inherited_region
     = "min_lat=undefined&min_lon=undefined&max_lat=undefined&max_lon=undefined&effort=steady".
Proof. split; reflexivity. Qed.

(** [buildQuery()] returns the query of the form's entries and leaves the
    state as it was. *)
Lemma buildQuery_returns (w : World) :
  buildQuery w = Returned (query_of (form (page w))) w.
Proof. reflexivity. Qed.

(** C1, as stated, fails: with the region [wellington] and a field
    [min_lat] of its own, the query string carries the field's value [0]
    and not the table's [-41.35]. *)
Lemma region_bound_overridden :
  FormData.get form_wellington_own_bound "region" = Some "wellington"
  /\ own_property regionBboxes "wellington"
     = Some (mkBbox (-4135) 17472 (-4124) 17482)
  /\ query_of form_wellington_own_bound
     = "min_lat=0&min_lon=174.72&max_lat=-41.24&max_lon=174.82"
  /\ ~ In ("min_lat", hundredths_toString (-4135))
          (parse (query_of form_wellington_own_bound)).
Proof.
  repeat split.
  intros H. vm_compute in H.
  repeat (destruct H as [H|H]; [discriminate|]). exact H.
Qed.

(** C1 (amended): when [region] has a non-empty value that is a key of the
    table, the query string has no parameter [region], has each of
    [min_lat], [min_lon], [max_lat], [max_lon] once, and each of them that
    the form has no non-empty field of carries the table's value. *)
Theorem region_bounds_emitted (data : FormData.t) (r : string) (b : Bbox) :
  FormData.get data "region" = Some r -> r <> "" ->
  own_property regionBboxes r = Some b ->
  ~ In "region" (names (parse (query_of data)))
  /\ NoDup (names (parse (query_of data)))
  /\ (forall k, In k bbox_keys -> In k (names (parse (query_of data))))
  /\ (forall k v, In (k, v) (bbox_params b) -> field_value data k = None ->
        In (k, v) (parse (query_of data))).
Proof.
  intros Hget Hr Hown. unfold query_of. rewrite parse_toString.
  pose proof (region_params_recognised data r b Hget Hr Hown) as Hreg.
  split; [apply queryParams_no_region|].
  split; [apply NoDup_queryParams|].
  split.
  - intros k Hk. apply in_names.
    rewrite get_queryParams by (apply bbox_key_not_region; assumption).
    destruct (field_value data k) as [x|]; [eauto|].
    apply in_names. rewrite Hreg, names_bbox_params. assumption.
  - intros k v Hin Hnone.
    apply in_get; [apply NoDup_queryParams|].
    assert (In k bbox_keys) as Hk.
    { rewrite <- (names_bbox_params b). apply in_map_iff.
      exists (k, v). auto. }
    rewrite get_queryParams by (apply bbox_key_not_region; assumption).
    rewrite Hnone, Hreg.
    apply in_get; [|assumption].
    rewrite names_bbox_params. repeat constructor; simpl; intuition discriminate.
Qed.

(** An instance of [region_bounds_emitted]: the region [auckland]. *)
Lemma region_bounds_emitted_witness :
  FormData.get form_auckland "region" = Some "auckland"
  /\ "auckland" <> ""
  /\ own_property regionBboxes "auckland"
     = Some (mkBbox (-3693) 17463 (-3677) 17484)
  /\ (~ In "region" (names (parse (query_of form_auckland)))
      /\ NoDup (names (parse (query_of form_auckland)))
      /\ (forall k, In k bbox_keys ->
            In k (names (parse (query_of form_auckland))))
      /\ (forall k v,
            In (k, v) (bbox_params (mkBbox (-3693) 17463 (-3677) 17484)) ->
            field_value form_auckland k = None ->
            In (k, v) (parse (query_of form_auckland)))).
Proof.
  split; [reflexivity|].
  split; [discriminate|].
  split; [reflexivity|].
  apply (region_bounds_emitted form_auckland "auckland"
           (mkBbox (-3693) 17463 (-3677) 17484));
    [reflexivity | discriminate | reflexivity].
Defined.

(** C2, as stated, fails: with an unknown region and a field [min_lat] of
    its own, the query string has the parameter [min_lat]. *)
Lemma unknown_region_own_bound :
  FormData.get form_atlantis_own_bound "region" = Some "atlantis"
  /\ own_property regionBboxes "atlantis" = None
  /\ buildQuery (offline form_atlantis_own_bound)
     = Returned "min_lat=1" (offline form_atlantis_own_bound)
  /\ In "min_lat" (names (parse "min_lat=1")).
Proof. repeat split. left. reflexivity. Qed.

(** C2 (amended): when [region] has a non-empty value that is neither a key
    of the table nor the name of a member the table inherits, [buildQuery]
    returns without an exception; its query string has no parameter
    [region], and has a parameter [min_lat], [min_lon], [max_lat] or
    [max_lon] only for a non-empty field of that name, with the field's
    value: no bound comes from the table. *)
Theorem unknown_region_dropped (w : World) (r : string) :
  FormData.get (form (page w)) "region" = Some r -> r <> "" ->
  regionBboxes_get r = Undefined ->
  exists query,
    buildQuery w = Returned query w
    /\ ~ In "region" (names (parse query))
    /\ forall k, In k bbox_keys ->
         get (parse query) k = field_value (form (page w)) k.
Proof.
  intros Hget Hr Hund. exists (query_of (form (page w))).
  split; [apply buildQuery_returns|].
  unfold query_of. rewrite parse_toString.
  split; [apply queryParams_no_region|].
  intros k Hk.
  rewrite get_queryParams by (apply bbox_key_not_region; assumption).
  rewrite (region_params_unrecognised _ r Hget Hund).
  destruct (field_value (form (page w)) k); reflexivity.
Qed.

(** An instance of [unknown_region_dropped]: the region [atlantis]. *)
Lemma unknown_region_dropped_witness :
  FormData.get (form (page (offline form_atlantis))) "region" = Some "atlantis"
  /\ "atlantis" <> ""
  /\ regionBboxes_get "atlantis" = Undefined
  /\ exists query,
       buildQuery (offline form_atlantis)
       = Returned query (offline form_atlantis)
       /\ ~ In "region" (names (parse query))
       /\ forall k, In k bbox_keys ->
            get (parse query) k
            = field_value (form (page (offline form_atlantis))) k.
Proof.
  split; [reflexivity|].
  split; [discriminate|].
  split; [reflexivity|].
  apply (unknown_region_dropped (offline form_atlantis) "atlantis");
    [reflexivity | discriminate | reflexivity].
Defined.

(** The value of every parameter when the form has no [region] entry. *)
Lemma get_query_no_region (data : FormData.t) (k : string) :
  FormData.get data "region" = None ->
  get (queryParams data) k = field_value data k.
Proof.
  intros Hget.
  assert (region_params data = new) as Hreg
      by (unfold region_params; rewrite Hget; reflexivity).
  destruct (string_dec k "region") as [->|Hk].
  - pose proof (queryParams_no_region data) as Hno.
    apply get_None in Hno. rewrite Hno. symmetry.
    apply field_value_None. intros v Hin.
    exfalso. exact (FormData_get_None _ _ Hget v Hin).
  - rewrite get_queryParams, Hreg by assumption.
    destruct (field_value data k); reflexivity.
Qed.

(** C3: when the form has no entry called [region], the parameter names of
    the query string are the names of the fields with a non-empty value,
    each once, and each parameter carries the value of its field (of the
    last non-empty entry, were a name repeated). *)
Theorem fields_pass_through (data : FormData.t) :
  FormData.get data "region" = None ->
  NoDup (names (parse (query_of data)))
  /\ (forall k, In k (names (parse (query_of data)))
                <-> exists v, In (k, v) data /\ v <> "")
  /\ (forall k v, In (k, v) (parse (query_of data))
                  <-> field_value data k = Some v)
  /\ (NoDup (map fst data) ->
      forall k v, In (k, v) (parse (query_of data))
                  <-> In (k, v) data /\ v <> "").
Proof.
  intros Hget. unfold query_of. rewrite parse_toString.
  pose proof (NoDup_queryParams data) as Hnd.
  assert (forall k v, In (k, v) (queryParams data)
                      <-> field_value data k = Some v) as Hval.
  { intros k v. rewrite (in_get _ k v Hnd), get_query_no_region by assumption.
    reflexivity. }
  split; [assumption|].
  split; [|split; [assumption|]].
  - intros k. rewrite in_names.
    setoid_rewrite get_query_no_region; [|assumption].
    split.
    + intros [v Hv]. exists v. apply field_value_Some. assumption.
    + intros [v [Hin Hv]].
      destruct (field_value data k) as [x|] eqn:E; [eauto|].
      rewrite field_value_None in E. exfalso. auto.
  - intros Huniq k v. rewrite Hval. split.
    + apply field_value_Some.
    + intros [Hin Hv]. apply field_value_unique; assumption.
Qed.

(** An instance of [fields_pass_through]: a form with three fields, one
    of them empty. *)
Lemma fields_pass_through_witness :
  FormData.get form_plain "region" = None
  /\ (NoDup (names (parse (query_of form_plain)))
      /\ (forall k, In k (names (parse (query_of form_plain)))
                    <-> exists v, In (k, v) form_plain /\ v <> "")
      /\ (forall k v, In (k, v) (parse (query_of form_plain))
                      <-> field_value form_plain k = Some v)
      /\ (NoDup (map fst form_plain) ->
          forall k v, In (k, v) (parse (query_of form_plain))
                      <-> In (k, v) form_plain /\ v <> "")).
Proof.
  split; [reflexivity|].
  apply (fields_pass_through form_plain). reflexivity.
Defined.

(** C9: [buildQuery] returns the same query string in any two states whose
    forms have the same entries, and it leaves each state as it was: it
    changes nothing of the page and sends no request. *)
Theorem buildQuery_pure (w1 w2 : World) :
  form (page w1) = form (page w2) ->
  exists query,
    buildQuery w1 = Returned query w1 /\ buildQuery w2 = Returned query w2.
Proof.
  intros Hform. exists (query_of (form (page w1))).
  split; [apply buildQuery_returns|].
  rewrite Hform. apply buildQuery_returns.
Qed.

(** An instance of [buildQuery_pure]: a fresh page and one that has
    rendered before, with the same form. *)
Lemma buildQuery_pure_witness :
  form (page (offline form_plain)) = form (page world_rendered)
  /\ exists query,
       buildQuery (offline form_plain) = Returned query (offline form_plain)
       /\ buildQuery world_rendered = Returned query world_rendered.
Proof.
  split; [reflexivity|].
  apply (buildQuery_pure (offline form_plain) world_rendered). reflexivity.
Defined.

Lemma concat_app (sep : string) (l1 l2 : list string) :
  l1 <> [] -> l2 <> [] ->
  String.concat sep (l1 ++ l2)%list
  = String.concat sep l1 ++ sep ++ String.concat sep l2.
Proof.
  intros H1 H2. induction l1 as [|x l1 IH]; [congruence|].
  destruct l1 as [|x' l1].
  - destruct l2 as [|y l2]; [congruence | reflexivity].
  - change (String.concat sep ((x :: x' :: l1) ++ l2)%list)
      with (x ++ sep ++ String.concat sep ((x' :: l1) ++ l2)%list).
    rewrite IH by discriminate.
    change (String.concat sep (x :: x' :: l1))
      with (x ++ sep ++ String.concat sep (x' :: l1)).
    rewrite !append_assoc. reflexivity.
Qed.

(** The string of a parameter list in two parts. *)
Lemma toString_app (p q : t) :
  p <> [] ->
  toString (p ++ q)%list
  = toString p ++ match q with
                  | [] => ""
                  | _ :: _ => "&" ++ toString q
                  end.
Proof.
  intros Hp. destruct q as [|e q].
  - rewrite app_nil_r, append_empty_r. reflexivity.
  - unfold toString. rewrite map_app. apply concat_app.
    + destruct p; [congruence | discriminate].
    + discriminate.
Qed.

(** C10: with a region that is a key of the table, a non-empty field
    called [min_lat], [min_lon], [max_lat] or [max_lon] gives its own value
    to the parameter of that name; with no such field, the query string
    starts with the four bounds of the table, in that order, and the other
    parameters follow. *)
Theorem own_bounds_override (data : FormData.t) (r : string) (b : Bbox) :
  FormData.get data "region" = Some r -> r <> "" ->
  own_property regionBboxes r = Some b ->
  (forall k v, In k bbox_keys -> field_value data k = Some v ->
     get (parse (query_of data)) k = Some v)
  /\ ((forall k, In k bbox_keys -> field_value data k = None) ->
      exists others,
        parse (query_of data) = (bbox_params b ++ others)%list
        /\ (forall k, In k (names others) -> ~ In k bbox_keys)
        /\ query_of data
           = toString (bbox_params b)
             ++ match others with
                | [] => ""
                | _ :: _ => "&" ++ toString others
                end).
Proof.
  intros Hget Hr Hown.
  pose proof (region_params_recognised data r b Hget Hr Hown) as Hreg.
  split.
  - intros k v Hk Hv. unfold query_of. rewrite parse_toString.
    rewrite get_queryParams by (apply bbox_key_not_region; assumption).
    rewrite Hv. reflexivity.
  - intros Hnone. exists (fold_left add_field data new).
    assert (queryParams data
            = (bbox_params b ++ fold_left add_field data new)%list) as Hq.
    { unfold queryParams, FormData.entries. rewrite Hreg.
      rewrite <- (app_nil_r (bbox_params b)) at 1.
      apply loop_app_fresh. rewrite names_bbox_params. assumption. }
    unfold query_of. rewrite parse_toString, Hq.
    split; [reflexivity|]. split.
    + intros k Hin Hk. apply in_names in Hin as [v Hv].
      rewrite get_loop in Hv by (apply bbox_key_not_region; assumption).
      rewrite pick_fold, (Hnone k Hk) in Hv. discriminate.
    + apply toString_app. discriminate.
Qed.

(** An instance of [own_bounds_override]: the region [queenstown] and a
    field [min_lat]. *)
Lemma own_bounds_override_witness :
  FormData.get form_queenstown_own_bound "region" = Some "queenstown"
  /\ "queenstown" <> ""
  /\ own_property regionBboxes "queenstown"
     = Some (mkBbox (-4508) 16856 (-4495) 16879)
  /\ ((forall k v, In k bbox_keys ->
         field_value form_queenstown_own_bound k = Some v ->
         get (parse (query_of form_queenstown_own_bound)) k = Some v)
      /\ ((forall k, In k bbox_keys ->
             field_value form_queenstown_own_bound k = None) ->
          exists others,
            parse (query_of form_queenstown_own_bound)
            = (bbox_params (mkBbox (-4508) 16856 (-4495) 16879) ++ others)%list
            /\ (forall k, In k (names others) -> ~ In k bbox_keys)
            /\ query_of form_queenstown_own_bound
               = toString (bbox_params (mkBbox (-4508) 16856 (-4495) 16879))
                 ++ match others with
                    | [] => ""
                    | _ :: _ => "&" ++ toString others
                    end)).
Proof.
  split; [reflexivity|].
  split; [discriminate|].
  split; [reflexivity|].
  apply (own_bounds_override form_queenstown_own_bound "queenstown"
           (mkBbox (-4508) 16856 (-4495) 16879));
    [reflexivity | discriminate | reflexivity].
Defined.

Example query_of_queenstown_own_bound :
  query_of form_queenstown_own_bound
  = "min_lat=-45&min_lon=168.56&max_lat=-44.95&max_lon=168.79&dog=allowed".
Proof. reflexivity. Qed.

(** ** Decimal numerals *)

Lemma all_digits_string_of_uint (d : Decimal.uint) :
  all_digits (NilEmpty.string_of_uint d) = true.
Proof. induction d; simpl; auto. Qed.

Lemma all_digits_decimal (n : N) : all_digits (decimal n) = true.
Proof. apply all_digits_string_of_uint. Qed.

Lemma truthy_decimal (n : N) : truthy (decimal n) = true.
Proof.
  unfold decimal. destruct n as [|p]; [reflexivity|]. simpl.
  pose proof (DecimalPos.Unsigned.to_uint_nonnil p) as H.
  destruct (Pos.to_uint p); [congruence | reflexivity ..].
Qed.

Lemma decimal_digit (d : Z) :
  (0 <= d < 10)%Z -> decimal (Z.to_N d) = digit_char d.
Proof.
  intros H.
  assert (d = 0 \/ d = 1 \/ d = 2 \/ d = 3 \/ d = 4 \/ d = 5 \/ d = 6
          \/ d = 7 \/ d = 8 \/ d = 9)%Z as Hd by lia.
  repeat (destruct Hd as [->|Hd]; [reflexivity|]). subst. reflexivity.
Qed.

Lemma is_digit_digit_char (d : Z) :
  (0 <= d < 10)%Z ->
  exists c, digit_char d = String c "" /\ is_digit c = true.
Proof.
  intros H.
  assert (d = 0 \/ d = 1 \/ d = 2 \/ d = 3 \/ d = 4 \/ d = 5 \/ d = 6
          \/ d = 7 \/ d = 8 \/ d = 9)%Z as Hd by lia.
  repeat (destruct Hd as [->|Hd]; [eexists; split; reflexivity|]).
  subst. eexists; split; reflexivity.
Qed.

(** The decimal numeral of [n] reads back as [n]. *)
Lemma decimal_reads_back (n : N) :
  option_map N.of_uint (NilEmpty.uint_of_string (decimal n)) = Some n.
Proof.
  unfold decimal. rewrite NilEmpty.usu. simpl.
  rewrite DecimalN.Unsigned.of_to. reflexivity.
Qed.

(** ** Fixed notation *)

Lemma digits_point_digit_app (a : string) (d : ascii) (seen : bool) :
  all_digits a = true -> is_digit d = true ->
  digits_point_digit (a ++ String "." (String d "")) seen = seen || truthy a.
Proof.
  revert seen. induction a as [|c a IH]; simpl; intros seen Ha Hd.
  - rewrite Hd, orb_false_r, andb_true_r. reflexivity.
  - apply andb_true_iff in Ha as [Hc Ha].
    rewrite Hc, IH by assumption. rewrite orb_true_r. reflexivity.
Qed.

Lemma digit_not_minus (c : ascii) : is_digit c = true -> Ascii.eqb c "-" = false.
Proof.
  destruct c as [[] [] [] [] [] [] [] []]; intros H;
    solve [reflexivity | discriminate H].
Qed.

Lemma one_decimal_place_signed (negative : bool) (a : string) (d : ascii) :
  all_digits a = true -> truthy a = true -> is_digit d = true ->
  one_decimal_place (sign_text negative ++ a ++ String "." (String d ""))
  = true.
Proof.
  intros Ha Hne Hd. destruct negative.
  - change (digits_point_digit (a ++ String "." (String d "")) false = true).
    rewrite digits_point_digit_app by assumption. exact Hne.
  - destruct a as [|c a]; [discriminate|].
    pose proof Ha as Hc. simpl in Hc. apply andb_true_iff in Hc as [Hc _].
    change (one_decimal_place (String c a ++ String "." (String d ""))
            = true).
    unfold one_decimal_place.
    change (String c a ++ String "." (String d ""))
      with (String c (a ++ String "." (String d ""))) at 1.
    cbv iota. rewrite (digit_not_minus c Hc).
    change (String c (a ++ String "." (String d "")))
      with (String c a ++ String "." (String d "")).
    rewrite digits_point_digit_app by assumption. reflexivity.
Qed.

Lemma fixed_digits_1 (n : Z) :
  (0 <= n)%Z ->
  fixed_digits n 1
  = decimal (Z.to_N (n / 10)) ++ "." ++ digit_char (n mod 10).
Proof.
  intros Hn. unfold fixed_digits.
  change (10 ^ Z.of_nat 1)%Z with 10%Z.
  assert (0 <= n mod 10 < 10)%Z as Hd by (apply Z.mod_pos_bound; lia).
  rewrite (decimal_digit _ Hd).
  destruct (is_digit_digit_char _ Hd) as [c [-> _]]. reflexivity.
Qed.

Lemma nearest_scaled_nonneg (m : positive) (e : Z) (f : nat) :
  (0 <= nearest_scaled m e f)%Z.
Proof.
  unfold nearest_scaled.
  assert (0 < 10 ^ Z.of_nat f)%Z by (apply Z.pow_pos_nonneg; lia).
  destruct (0 <=? e)%Z eqn:He.
  - apply Z.leb_le in He.
    assert (0 < 2 ^ e)%Z by (apply Z.pow_pos_nonneg; lia). nia.
  - apply Z.leb_gt in He.
    assert (0 < 2 ^ (- e))%Z by (apply Z.pow_pos_nonneg; lia).
    apply Z.div_pos; nia.
Qed.

(** [nearest_scaled m e f] is the integer nearest to [m * 2^e * 10^f]. *)
Lemma nearest_scaled_nearest (m : positive) (e : Z) (f : nat) :
  nearest_to (nearest_scaled m e f)
             (Z.pos m * 10 ^ Z.of_nat f * 2 ^ Z.max e 0)
             (2 ^ Z.max (- e) 0).
Proof.
  unfold nearest_to, nearest_scaled.
  destruct (0 <=? e)%Z eqn:He.
  - apply Z.leb_le in He.
    rewrite (Z.max_l e 0), (Z.max_r (- e) 0) by lia.
    change (2 ^ 0)%Z with 1%Z. lia.
  - apply Z.leb_gt in He.
    rewrite (Z.max_r e 0), (Z.max_l (- e) 0) by lia.
    change (2 ^ 0)%Z with 1%Z.
    assert (0 < 2 ^ (- e))%Z as Hp by (apply Z.pow_pos_nonneg; lia).
    set (P := (2 ^ (- e))%Z) in *.
    set (A := (2 * (Z.pos m * 10 ^ Z.of_nat f) + P)%Z).
    pose proof (Z.div_mod A (2 * P)) as Hdm.
    pose proof (Z.mod_pos_bound A (2 * P)) as Hb.
    assert (2 * P <> 0)%Z as Hnz by lia.
    specialize (Hdm Hnz). assert (0 < 2 * P)%Z as Hpos by lia.
    specialize (Hb Hpos).
    set (n := (A / (2 * P))%Z) in *.
    set (rem := (A mod (2 * P))%Z) in *.
    unfold A in Hdm. nia.
Qed.

(** The double of [double_7_96] is within half a unit in the last place of
    7.96. *)
Example double_7_96_nearest :
  nearest_to 8962163258467287 (796 * 2 ^ 50) 100.
Proof. unfold nearest_to. vm_compute. split; [discriminate | reflexivity]. Qed.

(** ** Labels *)

Lemma formatLabel_length (value : string) :
  String.length (formatLabel value) = String.length value.
Proof. induction value; simpl; congruence. Qed.

Lemma formatLabel_get (value : string) (i : nat) :
  String.get i (formatLabel value)
  = option_map underscore_to_space (String.get i value).
Proof.
  revert i. induction value as [|c r IH]; intros i; [reflexivity|].
  destruct i; simpl; auto.
Qed.

Lemma formatLabel_no_underscore (value : string) :
  occurs "_" (formatLabel value) = false.
Proof.
  induction value as [|c r IH]; simpl; auto.
  rewrite IH, orb_false_r. unfold underscore_to_space.
  destruct (Ascii.eqb c "_") eqn:E; [reflexivity | exact E].
Qed.

(** ** The trail list *)

(** A request that the network answers. *)
Lemma fetch_returns (w : World) (url : string) (response : Response) :
  network w url = Some response ->
  fetch url w
  = Returned (url, response)
      (mkWorld (page w) (network w) (log w ++ [Fetch url])).
Proof.
  intros H. unfold fetch, bind, emit. cbn [network]. rewrite H. reflexivity.
Qed.

Lemma concat_empty_cons (x : string) (l : list string) :
  String.concat "" (x :: l) = x ++ String.concat "" l.
Proof. destruct l; simpl; [rewrite append_empty_r|]; reflexivity. Qed.

Lemma concat_empty_app (l1 l2 : list string) :
  String.concat "" (l1 ++ l2)%list
  = String.concat "" l1 ++ String.concat "" l2.
Proof.
  induction l1 as [|x l1 IH]; [reflexivity|].
  change ((x :: l1) ++ l2)%list with (x :: (l1 ++ l2))%list.
  rewrite !concat_empty_cons, IH, append_assoc. reflexivity.
Qed.

(** The magnitude [m * 2^e] is below 10^21. *)
Lemma at_least_false (m : positive) (e : Z) :
  (Z.pos m * 2 ^ Z.max e 0 < 10 ^ 21 * 2 ^ Z.max (- e) 0)%Z ->
  at_least m e (10 ^ 21) = false.
Proof.
  unfold at_least. destruct (0 <=? e)%Z eqn:He.
  - apply Z.leb_le in He.
    rewrite (Z.max_l e 0), (Z.max_r (- e) 0) by lia.
    change (2 ^ 0)%Z with 1%Z. intros H. apply Z.leb_gt. lia.
  - apply Z.leb_gt in He.
    rewrite (Z.max_r e 0), (Z.max_l (- e) 0) by lia.
    change (2 ^ 0)%Z with 1%Z. intros H. apply Z.leb_gt. lia.
Qed.

Section Rendering.

Variable shortest_digits : positive -> Z -> string.

(** The content of the results element around the card of one trail. *)
Lemma cards_around (before after : list Trail.t) (trail : Trail.t) :
  String.concat "" (map (card shortest_digits) (before ++ trail :: after))
  = cards shortest_digits before
    ++ card shortest_digits trail ++ cards shortest_digits after.
Proof.
  unfold cards. rewrite map_app, concat_empty_app. cbn [map].
  rewrite concat_empty_cons. reflexivity.
Qed.

Lemma toFixed_1_finite (negative : bool) (m : positive) (e : Z) :
  at_least m e (10 ^ 21) = false ->
  toFixed shortest_digits (S754_finite negative m e) 1
  = sign_text negative
    ++ decimal (Z.to_N (nearest_scaled m e 1 / 10))
    ++ "." ++ digit_char (nearest_scaled m e 1 mod 10).
Proof.
  intros H. unfold toFixed. rewrite H.
  rewrite fixed_digits_1 by apply nearest_scaled_nonneg. reflexivity.
Qed.

Lemma toFixed_1_one_decimal_place (x : spec_float) :
  fixed_notation x = true ->
  one_decimal_place (toFixed shortest_digits x 1) = true.
Proof.
  destruct x as [s|s| |s m e]; simpl; try discriminate.
  - intros _. reflexivity.
  - intros H. apply negb_true_iff in H.
    change (one_decimal_place
              (toFixed shortest_digits (S754_finite s m e) 1) = true).
    rewrite toFixed_1_finite by assumption.
    assert (0 <= nearest_scaled m e 1 mod 10 < 10)%Z as Hd
        by (apply Z.mod_pos_bound; lia).
    destruct (is_digit_digit_char _ Hd) as [c [-> Hc]].
    apply one_decimal_place_signed;
      [apply all_digits_decimal | apply truthy_decimal | exact Hc].
Qed.

(** What [renderTrails] does to the state. *)
Lemma renderTrails_returns (trails : list Trail.t) (w : World) :
  renderTrails shortest_digits trails w
  = Returned tt
      (mkWorld
         (mkPage (form (page w))
                 (String.concat "" (map (card shortest_digits) trails))
                 (count_label (List.length trails))
                 (providers_innerHTML (page w)))
         (network w) (log w)).
Proof. reflexivity. Qed.

(** C4: in the results element that [renderTrails] fills, the card of a
    trail whose [dog_policy] is [allowed] has nothing between its map link
    and the end of the article: no warning block; the card of a trail with
    any other [dog_policy] has there the warning block, whose text is
    [dog_notes] as it is when the field is present, and
    [Dog access has restrictions.] when it is not. *)
Theorem warning_block_by_policy (before after : list Trail.t)
  (trail : Trail.t) (w : World) :
  exists elevation block : string,
    renderTrails shortest_digits (before ++ trail :: after) w
    = Returned tt
        (mkWorld
           (mkPage (form (page w))
              (cards shortest_digits before
               ++ (nl ++ "      <article class=" ++ dq ++ "trail" ++ dq ++ ">"
               ++ nl ++ "        <h3>" ++ Trail.name trail ++ "</h3>"
               ++ nl ++ "        <div class=" ++ dq ++ "trail-meta" ++ dq ++ ">"
               ++ nl ++ "          <span class=" ++ dq ++ "tag" ++ dq ++ ">"
               ++ Trail.location trail ++ "</span>"
               ++ nl ++ "          <span class=" ++ dq ++ "tag" ++ dq ++ ">"
               ++ toFixed shortest_digits (Trail.distance_km trail) 1 ++ " km</span>"
               ++ nl ++ "          <span class=" ++ dq ++ "tag" ++ dq ++ ">"
               ++ elevation ++ " m gain</span>"
               ++ nl ++ "          <span class=" ++ dq ++ "tag" ++ dq ++ ">"
               ++ formatLabel (Trail.difficulty trail) ++ "</span>"
               ++ nl ++ "          <span class=" ++ dq ++ "tag" ++ dq ++ ">"
               ++ Trail.provider trail ++ "</span>"
               ++ nl ++ "        </div>"
               ++ nl ++ "        <div class=" ++ dq ++ "trail-meta" ++ dq ++ ">"
               ++ nl ++ "          <span class=" ++ dq ++ "tag" ++ dq ++ ">"
               ++ "Dog policy: " ++ formatLabel (Trail.dog_policy trail)
               ++ "</span>"
               ++ nl ++ "          <span class=" ++ dq ++ "tag" ++ dq ++ ">"
               ++ "Surface: " ++ Trail.surface trail ++ "</span>"
               ++ nl ++ "        </div>"
               ++ nl ++ "        <div>"
               ++ nl ++ "          <a href=" ++ dq ++ Trail.map_url trail ++ dq
               ++ " target=" ++ dq ++ "_blank" ++ dq
               ++ " rel=" ++ dq ++ "noreferrer" ++ dq ++ ">View map</a>"
               ++ nl ++ "        </div>"
               ++ nl ++ "        " ++ block
               ++ nl ++ "      </article>")
               ++ cards shortest_digits after)
              (count_label (List.length (before ++ trail :: after)))
              (providers_innerHTML (page w)))
           (network w) (log w))
    /\ (Trail.dog_policy trail = "allowed" -> block = "")
    /\ (Trail.dog_policy trail <> "allowed" ->
        forall notes, Trail.dog_notes trail = Some notes ->
          block = "<div class=" ++ dq ++ "warning" ++ dq ++ ">"
                  ++ notes ++ "</div>")
    /\ (Trail.dog_policy trail <> "allowed" ->
        Trail.dog_notes trail = None ->
        block = "<div class=" ++ dq ++ "warning" ++ dq ++ ">"
                ++ "Dog access has restrictions.</div>").
Proof.
  exists (integer_toString (Trail.elevation_m trail)), (warning_block trail).
  split.
  - rewrite renderTrails_returns, cards_around.
    unfold card, card_head, card_tail, tag, distance_text, difficulty_label.
    rewrite !append_assoc. reflexivity.
  - unfold warning_block, warning_div.
    destruct (String.eqb_spec (Trail.dog_policy trail) "allowed") as [E|E];
      cbn [negb].
    + split; [reflexivity|]. split; intros H; contradiction.
    + split; [intros H; contradiction|].
      split; [intros _ notes ->|intros _ ->]; reflexivity.
Qed.

(** C5: the count label that [renderTrails] sets for N trails is
    [1 route] when N is 1, and the decimal numeral of N followed by
    [ routes] for every other N. *)
Theorem count_label_plural (trails : list Trail.t) (w : World) :
  exists w',
    renderTrails shortest_digits trails w = Returned tt w'
    /\ (List.length trails = 1%nat ->
        resultCount_textContent (page w') = "1 route")
    /\ (List.length trails <> 1%nat ->
        resultCount_textContent (page w')
        = decimal (N.of_nat (List.length trails)) ++ " routes").
Proof.
  eexists. split; [apply renderTrails_returns|]. simpl. unfold count_label.
  split.
  - intros ->. reflexivity.
  - intros H. apply Nat.eqb_neq in H. rewrite H. reflexivity.
Qed.

(** C6: on the empty sequence [renderTrails] returns without an
    exception, the results element holds no card (its content is empty)
    and the count label is [0 routes]. *)
Theorem renderTrails_empty (w : World) :
  exists w',
    renderTrails shortest_digits [] w = Returned tt w'
    /\ results_innerHTML (page w') = ""
    /\ resultCount_textContent (page w') = "0 routes".
Proof.
  eexists. split; [apply renderTrails_returns|]. split; reflexivity.
Qed.

(** C7 (amended): in the results element that [renderTrails] fills, the
    card of every trail shows the difficulty with every underscore
    replaced by a space and every other character kept
    ([moderate_effort] gives [moderate effort]).  When the distance is
    zero the card shows [0.0 km]; when it is a finite double [m * 2^e]
    below 10^21 in magnitude the card shows, before [ km], the sign and the
    integer nearest to ten times the magnitude (the larger one on a tie)
    with a point before its last digit: exactly one decimal place; the
    double nearest to 7.96 gives [8.0 km]. *)
Theorem distance_and_difficulty (before after : list Trail.t)
  (trail : Trail.t) (w : World) :
  exists distance elevation label : string,
    renderTrails shortest_digits (before ++ trail :: after) w
    = Returned tt
        (mkWorld
           (mkPage (form (page w))
              (cards shortest_digits before
               ++ (nl ++ "      <article class=" ++ dq ++ "trail" ++ dq ++ ">"
               ++ nl ++ "        <h3>" ++ Trail.name trail ++ "</h3>"
               ++ nl ++ "        <div class=" ++ dq ++ "trail-meta" ++ dq ++ ">"
               ++ nl ++ "          <span class=" ++ dq ++ "tag" ++ dq ++ ">"
               ++ Trail.location trail ++ "</span>"
               ++ nl ++ "          <span class=" ++ dq ++ "tag" ++ dq ++ ">"
               ++ distance ++ " km</span>"
               ++ nl ++ "          <span class=" ++ dq ++ "tag" ++ dq ++ ">"
               ++ elevation ++ " m gain</span>"
               ++ nl ++ "          <span class=" ++ dq ++ "tag" ++ dq ++ ">"
               ++ label ++ "</span>"
               ++ nl ++ "          <span class=" ++ dq ++ "tag" ++ dq ++ ">"
               ++ Trail.provider trail ++ "</span>"
               ++ nl ++ "        </div>"
               ++ nl ++ "        <div class=" ++ dq ++ "trail-meta" ++ dq ++ ">"
               ++ nl ++ "          <span class=" ++ dq ++ "tag" ++ dq ++ ">"
               ++ "Dog policy: " ++ formatLabel (Trail.dog_policy trail)
               ++ "</span>"
               ++ nl ++ "          <span class=" ++ dq ++ "tag" ++ dq ++ ">"
               ++ "Surface: " ++ Trail.surface trail ++ "</span>"
               ++ nl ++ "        </div>"
               ++ nl ++ "        <div>"
               ++ nl ++ "          <a href=" ++ dq ++ Trail.map_url trail ++ dq
               ++ " target=" ++ dq ++ "_blank" ++ dq
               ++ " rel=" ++ dq ++ "noreferrer" ++ dq ++ ">View map</a>"
               ++ nl ++ "        </div>"
               ++ nl ++ "        " ++ warning_block trail
               ++ nl ++ "      </article>")
               ++ cards shortest_digits after)
              (count_label (List.length (before ++ trail :: after)))
              (providers_innerHTML (page w)))
           (network w) (log w))
    /\ String.length label = String.length (Trail.difficulty trail)
    /\ (forall i,
          String.get i label
          = option_map (fun c => if Ascii.eqb c "_" then " "%char else c)
              (String.get i (Trail.difficulty trail)))
    /\ (Trail.difficulty trail = "moderate_effort" ->
        label = "moderate effort")
    /\ (forall negative,
          Trail.distance_km trail = S754_zero negative -> distance = "0.0")
    /\ (forall negative m e,
          Trail.distance_km trail = S754_finite negative m e ->
          (Z.pos m * 2 ^ Z.max e 0 < 10 ^ 21 * 2 ^ Z.max (- e) 0)%Z ->
          one_decimal_place distance = true
          /\ exists n,
               (2 ^ Z.max (- e) 0 * (2 * n - 1)
                <= 2 * (Z.pos m * 10 * 2 ^ Z.max e 0)
                < 2 ^ Z.max (- e) 0 * (2 * n + 1))%Z
               /\ distance
                  = (if negative then "-" else "")
                    ++ decimal (Z.to_N (n / 10)) ++ "."
                    ++ String (ascii_of_N (48 + Z.to_N (n mod 10))) "")
    /\ (Trail.distance_km trail
        = S754_finite false 8962163258467287 (-50) ->
        distance = "8.0").
Proof.
  exists (toFixed shortest_digits (Trail.distance_km trail) 1),
         (integer_toString (Trail.elevation_m trail)),
         (formatLabel (Trail.difficulty trail)).
  split.
  { rewrite renderTrails_returns, cards_around.
    unfold card, card_head, card_tail, tag, distance_text, difficulty_label.
    rewrite !append_assoc. reflexivity. }
  split; [apply formatLabel_length|].
  split; [intros i; apply formatLabel_get|].
  split; [intros ->; reflexivity|].
  split; [intros negative ->; reflexivity|].
  split; [|intros ->; reflexivity].
  intros negative m e -> Hlt.
  pose proof (at_least_false m e Hlt) as Hfix.
  split.
  - apply toFixed_1_one_decimal_place.
    change (negb (at_least m e (10 ^ 21)) = true).
    rewrite Hfix. reflexivity.
  - exists (nearest_scaled m e 1). split.
    + exact (nearest_scaled_nearest m e 1).
    + apply toFixed_1_finite. exact Hfix.
Qed.

(** C8: when the response to the trails request is not ok, [fetchTrails]
    returns without an exception; the results element holds the warning
    with [Could not load live trails. ] and the status text and no card,
    the count label is [0 routes], and the only event is the request: the
    body is not read, whatever it is. *)
Theorem fetchTrails_not_ok (w : World) (response : Response) :
  network w ("/api/trails?" ++ query_of (form (page w))) = Some response ->
  ok response = false ->
  exists w',
    fetchTrails shortest_digits w = Returned tt w'
    /\ results_innerHTML (page w')
       = "<div class=" ++ dq ++ "warning" ++ dq
         ++ ">Could not load live trails. " ++ statusText response ++ "</div>"
    /\ resultCount_textContent (page w') = "0 routes"
    /\ form (page w') = form (page w)
    /\ providers_innerHTML (page w') = providers_innerHTML (page w)
    /\ log w'
       = (log w ++ [Fetch ("/api/trails?" ++ query_of (form (page w)))])%list.
Proof.
  intros Hnet Hok. eexists.
  unfold fetchTrails, bind at 1. rewrite buildQuery_returns.
  unfold bind at 1. rewrite (fetch_returns _ _ _ Hnet).
  cbn [snd]. rewrite Hok. cbn [negb].
  split; [reflexivity|]. repeat split.
Qed.

End Rendering.

(** C7, as stated, fails: a distance that the body writes as [1e999] is
    the double [Infinity], and its card in the results element shows
    [Infinity km], with no decimal place. *)
Lemma distance_unbounded :
  exists trail,
    Trail.distance_km trail = S754_infinity false
    /\ one_decimal_place "Infinity" = false
    /\ forall shortest_digits w,
         renderTrails shortest_digits [trail] w
         = Returned tt
             (mkWorld
                (mkPage (form (page w))
                   (nl ++ "      <article class=" ++ dq ++ "trail" ++ dq ++ ">"
                    ++ nl ++ "        <h3>Far</h3>"
                    ++ nl ++ "        <div class=" ++ dq ++ "trail-meta" ++ dq
                    ++ ">"
                    ++ nl ++ "          <span class=" ++ dq ++ "tag" ++ dq
                    ++ ">Nowhere</span>"
                    ++ nl ++ "          <span class=" ++ dq ++ "tag" ++ dq
                    ++ ">Infinity km</span>"
                    ++ nl ++ "          <span class=" ++ dq ++ "tag" ++ dq
                    ++ ">0 m gain</span>"
                    ++ nl ++ "          <span class=" ++ dq ++ "tag" ++ dq
                    ++ ">hard</span>"
                    ++ nl ++ "          <span class=" ++ dq ++ "tag" ++ dq
                    ++ ">DOC</span>"
                    ++ nl ++ "        </div>"
                    ++ nl ++ "        <div class=" ++ dq ++ "trail-meta" ++ dq
                    ++ ">"
                    ++ nl ++ "          <span class=" ++ dq ++ "tag" ++ dq
                    ++ ">Dog policy: allowed</span>"
                    ++ nl ++ "          <span class=" ++ dq ++ "tag" ++ dq
                    ++ ">Surface: rock</span>"
                    ++ nl ++ "        </div>"
                    ++ nl ++ "        <div>"
                    ++ nl ++ "          <a href=" ++ dq
                    ++ "https://example.org/4" ++ dq
                    ++ " target=" ++ dq ++ "_blank" ++ dq
                    ++ " rel=" ++ dq ++ "noreferrer" ++ dq ++ ">View map</a>"
                    ++ nl ++ "        </div>"
                    ++ nl ++ "        "
                    ++ nl ++ "      </article>")
                   "1 route"
                   (providers_innerHTML (page w)))
                (network w) (log w)).
Proof.
  exists trail_unbounded. split; [reflexivity|]. split; [reflexivity|].
  intros sd w. reflexivity.
Qed.

(** An instance of [fetchTrails_not_ok]: the answer 503. *)
Lemma fetchTrails_not_ok_witness :
  network world_unavailable
    ("/api/trails?" ++ query_of (form (page world_unavailable)))
  = Some unavailable
  /\ ok unavailable = false
  /\ exists w',
       fetchTrails (fun _ _ => "") world_unavailable = Returned tt w'
       /\ results_innerHTML (page w')
          = "<div class=" ++ dq ++ "warning" ++ dq
            ++ ">Could not load live trails. " ++ statusText unavailable
            ++ "</div>"
       /\ resultCount_textContent (page w') = "0 routes"
       /\ form (page w') = form (page world_unavailable)
       /\ providers_innerHTML (page w')
          = providers_innerHTML (page world_unavailable)
       /\ log w'
          = (log world_unavailable
             ++ [Fetch ("/api/trails?"
                        ++ query_of (form (page world_unavailable)))])%list.
Proof.
  split; [reflexivity|].
  split; [reflexivity|].
  apply (fetchTrails_not_ok (fun _ _ => "") world_unavailable unavailable);
    reflexivity.
Defined.

Example card_on_leash :
  warning_block trail_on_leash
  = "<div class=" ++ dq ++ "warning" ++ dq ++ ">Dogs on a leash only.</div>"
  /\ warning_block trail_restricted
     = "<div class=" ++ dq ++ "warning" ++ dq
       ++ ">Dog access has restrictions.</div>"
  /\ warning_block trail_allowed = ""
  /\ distance_text (fun _ _ => "") trail_on_leash = "2.5 km"
  /\ distance_text (fun _ _ => "") trail_restricted = "0.0 km".
Proof. repeat split. Qed.

Example fetchTrails_unavailable :
  fetchTrails (fun _ _ => "") world_unavailable
  = Returned tt
      (mkWorld
         (mkPage form_auckland
            ("<div class=" ++ dq ++ "warning" ++ dq
             ++ ">Could not load live trails. Service Unavailable</div>")
            "0 routes" "")
         (fun _ => Some unavailable)
         [Fetch "/api/trails?min_lat=-36.93&min_lon=174.63&max_lat=-36.77&max_lon=174.84&effort=steady"]).
Proof. reflexivity. Qed.

(** * Further properties of the script *)

(** ** The query string as a whole *)

Lemma truthy_app (a b : string) : truthy (a ++ b) = truthy a || truthy b.
Proof. destruct a; reflexivity. Qed.





(** X1: the query string that [buildQuery] returns is read back, by the
    urlencoded parser, as exactly the parameters that [buildQuery] has set:
    the same names and values, byte for byte, in the same order, whatever
    bytes the fields contain. *)
Theorem query_reads_back (w : World) :
  exists query,
    buildQuery w = Returned query w
    /\ parse query = queryParams (form (page w)).
Proof.
  exists (query_of (form (page w))).
  split; [apply buildQuery_returns|]. apply parse_toString.
Qed.


Lemma set_values (P : string -> Prop) (p : t) (k v : string) :
  (forall e, In e p -> P (snd e)) -> P v ->
  forall e, In e (set p k v) -> P (snd e).
Proof.
  intros Hp Hv. induction p as [|q rest IH]; simpl.
  - intros e [<-|[]]. exact Hv.
  - destruct (named k q).
    + intros e [<-|Hin]; [exact Hv|].
      apply filter_In in Hin as [Hin _]. apply Hp. right. exact Hin.
    + intros e [<-|Hin].
      * apply Hp. left. reflexivity.
      * apply IH; [|exact Hin]. intros e' He'. apply Hp. right. exact He'.
Qed.

Lemma loop_values (P : string -> Prop) (data : FormData.t) (p : t) :
  (forall v, v <> "" -> P v) ->
  (forall e, In e p -> P (snd e)) ->
  forall e, In e (fold_left add_field data p) -> P (snd e).
Proof.
  intros HP. revert p.
  induction data as [|[n v] rest IH]; intros p Hp; simpl; [exact Hp|].
  apply IH.
  destruct (String.eqb n "region"); [exact Hp|].
  destruct (truthy v) eqn:Hv; [|exact Hp].
  apply set_values; [exact Hp|]. apply HP. apply truthy_true. exact Hv.
Qed.

Lemma hundredths_toString_nonempty (z : Z) : hundredths_toString z <> "".
Proof.
  apply truthy_true. unfold hundredths_toString.
  rewrite !truthy_app, truthy_decimal, orb_true_r. reflexivity.
Qed.

Lemma region_params_values (data : FormData.t) :
  forall e, In e (region_params data) -> snd e <> "".
Proof.
  destruct (region_params_cases data) as [->|[r [_ ->]]]; [intros e []|].
  assert (forall field, bbox_field (regionBboxes_get r) field <> "") as Hf.
  { intros field. destruct (regionBboxes_get r); simpl;
      [apply hundredths_toString_nonempty | discriminate ..]. }
  unfold set_bbox.
  do 4 (apply (set_values (fun x => x <> "")); [|apply Hf]).
  intros e [].
Qed.

(** X3: for every form, the parameters of the query string have pairwise
    distinct names, none is called [region], and none has an empty
    value. *)
Theorem query_invariants (data : FormData.t) :
  NoDup (names (parse (query_of data)))
  /\ ~ In "region" (names (parse (query_of data)))
  /\ forall k v, In (k, v) (parse (query_of data)) -> v <> "".
Proof.
  unfold query_of. rewrite parse_toString.
  split; [apply NoDup_queryParams|].
  split; [apply queryParams_no_region|].
  intros k v Hin.
  apply (loop_values (fun x => x <> "") data (region_params data)
           (fun x H => H) (region_params_values data) (k, v) Hin).
Qed.

(** X4: a [region] entry with an empty value, the blank choice of the
    selector, is ignored: the parameters are the non-empty fields other
    than [region], each with the value of its field. *)
Theorem blank_region_ignored (data : FormData.t) :
  FormData.get data "region" = Some "" ->
  forall k v,
    In (k, v) (parse (query_of data))
    <-> k <> "region" /\ field_value data k = Some v.
Proof.
  intros Hget k v. unfold query_of. rewrite parse_toString.
  assert (region_params data = new) as Hreg
      by (unfold region_params; rewrite Hget; reflexivity).
  rewrite (in_get _ k v (NoDup_queryParams data)).
  destruct (string_dec k "region") as [->|Hk].
  - pose proof (queryParams_no_region data) as Hno.
    apply get_None in Hno. rewrite Hno.
    split; [discriminate | intros [H _]; congruence].
  - rewrite get_queryParams, Hreg by assumption.
    destruct (field_value data k); simpl; split;
      try tauto; try (intros [_ H]; exact H); discriminate.
Qed.

Lemma blank_region_ignored_witness :
  FormData.get form_blank_region "region" = Some ""
  /\ forall k v,
       In (k, v) (parse (query_of form_blank_region))
       <-> k <> "region" /\ field_value form_blank_region k = Some v.
Proof.
  split; [reflexivity|].
  apply (blank_region_ignored form_blank_region). reflexivity.
Defined.

Lemma inherited_not_own (r : string) :
  In r Object_prototype_keys -> regionBboxes_get r = Inherited.
Proof.
  simpl. intros H.
  repeat (destruct H as [<-|H]; [reflexivity|]). contradiction.
Qed.

(** X5: when [region] names a member that the table inherits from
    [Object.prototype] ([constructor], [toString], [__proto__], ...), the
    guard of the region branch holds and the four bounds are set from
    fields that the member does not have: each of [min_lat], [min_lon],
    [max_lat], [max_lon] is a parameter, with the text [undefined] as its
    value unless the form has a non-empty field of that name. *)
Theorem inherited_region_bounds (data : FormData.t) (r : string) :
  FormData.get data "region" = Some r ->
  In r Object_prototype_keys ->
  forall k, In k bbox_keys ->
    get (parse (query_of data)) k
    = Some match field_value data k with
           | Some v => v
           | None => "undefined"
           end.
Proof.
  intros Hget Hr k Hk. unfold query_of. rewrite parse_toString.
  rewrite get_queryParams by (apply bbox_key_not_region; assumption).
  assert (region_params data = set_bbox new Inherited) as Hreg.
  { unfold region_params. rewrite Hget, (inherited_not_own r Hr).
    assert (truthy r = true) as Ht.
    { simpl in Hr.
      repeat (destruct Hr as [<-|Hr]; [reflexivity|]). contradiction. }
    rewrite Ht. reflexivity. }
  rewrite Hreg. destruct (field_value data k); [reflexivity|].
  simpl in Hk.
  repeat (destruct Hk as [<-|Hk]; [reflexivity|]). contradiction.
Qed.

Lemma inherited_region_bounds_witness :
  FormData.get form_inherited_region "region" = Some "constructor"
  /\ In "constructor" Object_prototype_keys
  /\ forall k, In k bbox_keys ->
       get (parse (query_of form_inherited_region)) k
       = Some match field_value form_inherited_region k with
              | Some v => v
              | None => "undefined"
              end.
Proof.
  split; [reflexivity|].
  split; [left; reflexivity|].
  apply (inherited_region_bounds form_inherited_region "constructor");
    [reflexivity | left; reflexivity].
Defined.

(** ** The order of the parameters *)

Lemma set_fresh (p : t) (k v : string) :
  ~ In k (names p) -> set p k v = (p ++ [(k, v)])%list.
Proof.
  intros H. rewrite <- (app_nil_r p) at 1.
  rewrite set_app_fresh by assumption. reflexivity.
Qed.

Lemma loop_filter (data : FormData.t) (q : t) :
  NoDup (map fst data) ->
  (forall k, In k (names q) -> ~ In k (map fst data)) ->
  fold_left add_field data q = (q ++ filter forwarded data)%list.
Proof.
  revert q. induction data as [|[n v] rest IH]; intros q Hnd Hq.
  - simpl. rewrite app_nil_r. reflexivity.
  - inversion Hnd as [|? ? Hn Hrest]; subst.
    assert (forall k, In k (names q) -> ~ In k (map fst rest)) as Hq'.
    { intros k Hk Hin. apply (Hq k Hk). right. exact Hin. }
    cbn [fold_left filter]. unfold add_field at 2, forwarded at 1.
    cbn [fst snd].
    destruct (String.eqb n "region"); cbn [negb andb]; [auto|].
    destruct (truthy v); [|auto].
    rewrite set_fresh by (intros Hin; apply (Hq n Hin); left; reflexivity).
    rewrite IH; [rewrite <- app_assoc; reflexivity | assumption |].
    intros k Hk. unfold names in Hk. rewrite map_app in Hk.
    apply in_app_or in Hk as [Hk|[<-|[]]]; [apply Hq'; exact Hk | exact Hn].
Qed.

(** X6: when the names of the form's entries are pairwise distinct and the
    form has no non-empty field named like a parameter that the region
    branch has set, the parameters are those of the region branch followed
    by the non-empty entries other than [region], in the order of the
    form. *)
Theorem query_keeps_form_order (data : FormData.t) :
  NoDup (map fst data) ->
  (forall k, In k (names (region_params data)) -> field_value data k = None) ->
  parse (query_of data) = (region_params data ++ filter forwarded data)%list.
Proof.
  intros Hnd Hfresh. unfold query_of. rewrite parse_toString.
  unfold queryParams, FormData.entries.
  rewrite <- (app_nil_r (region_params data)) at 1.
  rewrite loop_app_fresh by assumption.
  rewrite (loop_filter data [] Hnd); [reflexivity|]. intros k [].
Qed.

Lemma query_keeps_form_order_witness :
  NoDup (map fst form_auckland)
  /\ (forall k, In k (names (region_params form_auckland)) ->
        field_value form_auckland k = None)
  /\ parse (query_of form_auckland)
     = (region_params form_auckland ++ filter forwarded form_auckland)%list.
Proof.
  assert (NoDup (map fst form_auckland)) as Hnd.
  { repeat constructor; simpl; intuition discriminate. }
  assert (forall k, In k (names (region_params form_auckland)) ->
            field_value form_auckland k = None) as Hfresh.
  { intros k Hk. simpl in Hk.
    repeat (destruct Hk as [<-|Hk]; [reflexivity|]). contradiction. }
  split; [exact Hnd|]. split; [exact Hfresh|].
  exact (query_keeps_form_order form_auckland Hnd Hfresh).
Defined.

(** ** The first version of the query builder *)

Lemma get_add_field_plain (p : t) (e : string * string) (k : string) :
  get (add_field_plain p e) k = pick k (get p k) e.
Proof.
  destruct e as [n v]. unfold add_field_plain, pick; simpl.
  destruct (truthy v); [|rewrite andb_false_r; reflexivity].
  rewrite get_set, andb_true_r. reflexivity.
Qed.

Lemma get_loop_plain (data : FormData.t) (p : t) (k : string) :
  get (fold_left add_field_plain data p) k = fold_left (pick k) data (get p k).
Proof.
  revert p. induction data as [|e rest IH]; intros p; simpl; auto.
  rewrite IH, get_add_field_plain. reflexivity.
Qed.

Lemma loop_plain_agrees (data : FormData.t) (p : t) :
  (forall v, ~ In ("region", v) data) ->
  fold_left add_field data p = fold_left add_field_plain data p.
Proof.
  revert p. induction data as [|[n v] rest IH]; intros p H; simpl; auto.
  destruct (String.eqb_spec n "region") as [->|Hn].
  - exfalso. apply (H v). left. reflexivity.
  - apply IH. intros x Hx. apply (H x). right. exact Hx.
Qed.

(** X7: the first version of [buildQuery], without the region table, gives
    every name the non-empty value that the form has for it, [region]
    included; on a form with no entry called [region] the current
    [buildQuery] returns the same string as the first version. *)
Theorem region_table_conservative (data : FormData.t) :
  (forall k, get (parse (plain_query_of data)) k = field_value data k)
  /\ (FormData.get data "region" = None ->
      query_of data = plain_query_of data).
Proof.
  split.
  - intros k. unfold plain_query_of, FormData.entries.
    rewrite parse_toString, get_loop_plain. reflexivity.
  - intros Hget. unfold query_of, plain_query_of, queryParams.
    f_equal. unfold region_params. rewrite Hget.
    apply loop_plain_agrees. apply FormData_get_None. exact Hget.
Qed.

(** ** Labels again *)

Lemma formatLabel_app (a b : string) :
  formatLabel (a ++ b) = formatLabel a ++ formatLabel b.
Proof. induction a as [|c a IH]; simpl; congruence. Qed.

Lemma formatLabel_fixed (value : string) :
  occurs "_" value = false -> formatLabel value = value.
Proof.
  induction value as [|c r IH]; simpl; auto.
  intros H. apply orb_false_iff in H as [Hc Hr].
  unfold underscore_to_space. rewrite Hc, (IH Hr). reflexivity.
Qed.

(** X8: [formatLabel] leaves a label without underscores as it is, so
    formatting a formatted label changes nothing; and the label of two
    texts put together is their labels put together. *)
Theorem formatLabel_stable (a b : string) :
  (occurs "_" a = false -> formatLabel a = a)
  /\ formatLabel (formatLabel a) = formatLabel a
  /\ formatLabel (a ++ b) = formatLabel a ++ formatLabel b.
Proof.
  split; [apply formatLabel_fixed|].
  split; [apply formatLabel_fixed, formatLabel_no_underscore|].
  apply formatLabel_app.
Qed.

(** ** Rendering and the two fetches, on every path *)

(** What [fetchProviders] does, on every path. *)
Lemma fetchProviders_run (w : World) :
  fetchProviders w
  = match network w providers_url with
    | None => Thrown (logged w [Fetch providers_url])
    | Some response =>
        match json response with
        | Some (ProviderArray providers) =>
            Returned tt
              (updated w (page_with_providers w providers)
                 [Fetch providers_url; ReadJson providers_url])
        | _ => Thrown (logged w [Fetch providers_url; ReadJson providers_url])
        end
    end.
Proof.
  unfold fetchProviders, fetch, json_providers, set_providers_innerHTML,
    update_page, logged, updated, providers_url.
  unfold bind, emit.
  cbn [page network log fst snd].
  destruct (network w "/api/providers") as [response|]; [|reflexivity].
  cbn [fst snd page network log].
  destruct (json response) as [[trails|providers]|];
    rewrite <- app_assoc; reflexivity.
Qed.

Lemma network_updated (w : World) (p : Page) (events : list event) :
  network (updated w p events) = network w.
Proof. reflexivity. Qed.

Lemma trails_url_updated (w : World) (p : Page) (events : list event) :
  form p = form (page w) -> trails_url (updated w p events) = trails_url w.
Proof. intros H. unfold trails_url, updated; simpl. rewrite H. reflexivity. Qed.

Lemma network_logged (w : World) (events : list event) :
  network (logged w events) = network w.
Proof. reflexivity. Qed.

Lemma trails_url_logged (w : World) (events : list event) :
  trails_url (logged w events) = trails_url w.
Proof. reflexivity. Qed.

Section Paths.

Variable shortest_digits : positive -> Z -> string.

(** What [fetchTrails] does, on every path. *)
Lemma fetchTrails_run (w : World) :
  fetchTrails shortest_digits w
  = match network w (trails_url w) with
    | None => Thrown (logged w [Fetch (trails_url w)])
    | Some response =>
        if ok response then
          match json response with
          | Some (TrailArray trails) =>
              Returned tt
                (updated w (page_with_trails shortest_digits w trails)
                   [Fetch (trails_url w); ReadJson (trails_url w)])
          | _ =>
              Thrown (logged w [Fetch (trails_url w); ReadJson (trails_url w)])
          end
        else
          Returned tt
            (updated w (page_with_warning w response) [Fetch (trails_url w)])
    end.
Proof.
  unfold fetchTrails, bind at 1. rewrite buildQuery_returns.
  fold (trails_url w).
  unfold fetch, json_trails, renderTrails, set_results_innerHTML,
    set_resultCount_textContent, update_page, logged, updated.
  unfold bind, emit.
  cbn [page network log fst snd].
  destruct (network w (trails_url w)) as [response|]; [|reflexivity].
  cbn [fst snd page network log].
  destruct (ok response); cbn [negb]; [|reflexivity].
  cbn [fst snd page network log].
  destruct (json response) as [[trails|providers]|];
    rewrite <- app_assoc; reflexivity.
Qed.

(** X9: [renderTrails] puts the cards of the trails into the results
    element in the order of the sequence: the content for a sequence in
    two parts is the content for the first part followed by the content for
    the second, and the label counts both. *)
Theorem cards_in_order (first second : list Trail.t) (w : World) :
  exists w',
    renderTrails shortest_digits (first ++ second) w = Returned tt w'
    /\ results_innerHTML (page w')
       = cards shortest_digits first ++ cards shortest_digits second
    /\ resultCount_textContent (page w')
       = count_label (List.length first + List.length second).
Proof.
  eexists. split; [apply renderTrails_returns|]. cbn [page results_innerHTML
    resultCount_textContent]. split.
  - unfold cards. rewrite map_app. apply concat_empty_app.
  - rewrite length_app. reflexivity.
Qed.

(** X10: searching again changes nothing on the page when the form and
    the answer of the network are the same: the page after two calls of
    [fetchTrails] in a row is the page after the first, on every path. *)
Theorem search_again_same_page (w : World) :
  page (final (fetchTrails shortest_digits
                 (final (fetchTrails shortest_digits w))))
  = page (final (fetchTrails shortest_digits w)).
Proof.
  rewrite (fetchTrails_run w).
  destruct (network w (trails_url w)) as [response|] eqn:Enet;
    [destruct (ok response) eqn:Eok;
       [destruct (json response) as [[trails|providers]|] eqn:Ejson|]|];
    cbn [final]; rewrite fetchTrails_run;
    first [rewrite trails_url_updated by reflexivity
          | rewrite trails_url_logged];
    first [rewrite network_updated | rewrite network_logged];
    rewrite Enet; try rewrite Eok; try rewrite Ejson; reflexivity.
Qed.

(** X11: when the response to the trails request is ok and its body is an
    array of trails, [fetchTrails] returns; the results element holds the
    cards of these trails, in order, the count label is theirs, and the
    events are the request and then the reading of the body. *)
Theorem fetchTrails_ok_renders (w : World) (response : Response)
  (trails : list Trail.t) :
  network w (trails_url w) = Some response ->
  ok response = true ->
  json response = Some (TrailArray trails) ->
  fetchTrails shortest_digits w
  = Returned tt
      (mkWorld
         (mkPage (form (page w)) (cards shortest_digits trails)
                 (count_label (List.length trails))
                 (providers_innerHTML (page w)))
         (network w)
         (log w ++ [Fetch (trails_url w); ReadJson (trails_url w)])).
Proof.
  intros Hnet Hok Hjson. rewrite fetchTrails_run, Hnet, Hok, Hjson.
  reflexivity.
Qed.

(** X12: when the trails request fails, or its response is ok with a body
    that is not JSON, [fetchTrails] throws and the page is left as it was:
    what was rendered before stays, and no warning is shown. *)
Theorem fetchTrails_failure_keeps_page (w : World) :
  network w (trails_url w) = None
  \/ (exists response,
        network w (trails_url w) = Some response
        /\ ok response = true /\ json response = None) ->
  exists w',
    fetchTrails shortest_digits w = Thrown w' /\ page w' = page w.
Proof.
  intros [Hnet|[response [Hnet [Hok Hjson]]]]; rewrite fetchTrails_run, Hnet.
  - eexists. split; reflexivity.
  - rewrite Hok, Hjson. eexists. split; reflexivity.
Qed.

(** X14: on every path, returned or thrown, [fetchTrails] leaves the form,
    the providers element and the network as they were; it sends exactly
    one request, to [/api/trails?] followed by the query string of the
    form, and reads at most one body, after the request. *)
Theorem fetchTrails_frame (w : World) :
  form (page (final (fetchTrails shortest_digits w))) = form (page w)
  /\ providers_innerHTML (page (final (fetchTrails shortest_digits w)))
     = providers_innerHTML (page w)
  /\ network (final (fetchTrails shortest_digits w)) = network w
  /\ (log (final (fetchTrails shortest_digits w))
      = (log w ++ [Fetch (trails_url w)])%list
      \/ log (final (fetchTrails shortest_digits w))
         = (log w ++ [Fetch (trails_url w); ReadJson (trails_url w)])%list).
Proof.
  rewrite fetchTrails_run.
  destruct (network w (trails_url w)) as [response|]; [|simpl; auto].
  destruct (ok response); [|simpl; auto].
  destruct (json response) as [[trails|providers]|]; simpl; auto.
Qed.

(** X16: the two fetches write to different elements, so when both
    return, the page after both is the same whichever completes first:
    the form as it was, the results and the count label of [fetchTrails],
    the providers of [fetchProviders]. *)
Theorem fetches_commute (w w1 w2 : World) :
  fetchProviders w = Returned tt w1 ->
  fetchTrails shortest_digits w = Returned tt w2 ->
  exists w12 w21,
    (fetchProviders ;;; fetchTrails shortest_digits) w = Returned tt w12
    /\ (fetchTrails shortest_digits ;;; fetchProviders) w = Returned tt w21
    /\ page w12 = page w21
    /\ page w12
       = mkPage (form (page w)) (results_innerHTML (page w2))
                (resultCount_textContent (page w2))
                (providers_innerHTML (page w1)).
Proof.
  intros Hp Ht.
  pose proof Hp as Hp'. rewrite fetchProviders_run in Hp'.
  destruct (network w providers_url) as [rp|] eqn:Enp; [|discriminate].
  destruct (json rp) as [[?|providers]|] eqn:Ejp; try discriminate.
  pose proof Ht as Ht'. rewrite fetchTrails_run in Ht'.
  destruct (network w (trails_url w)) as [rt|] eqn:Ent; [|discriminate].
  unfold bind. rewrite Hp, Ht.
  rewrite fetchTrails_run, fetchProviders_run.
  injection Hp' as <-.
  rewrite trails_url_updated by reflexivity.
  destruct (ok rt) eqn:Eok.
  - destruct (json rt) as [[trails|?]|] eqn:Ejt; try discriminate.
    injection Ht' as <-.
    rewrite !network_updated, Ent, Enp, Ejp, Eok, Ejt.
    eexists. eexists. repeat split.
  - injection Ht' as <-.
    rewrite !network_updated, Ent, Enp, Ejp, Eok.
    eexists. eexists. repeat split.
Qed.

End Paths.


(** X15: on every path, returned or thrown, [fetchProviders] leaves the
    form, the results element, the count label and the network as they
    were; it sends exactly one request, to [/api/providers] whatever the
    form holds, and reads at most one body; when it throws, the providers
    element is as it was too. *)
Theorem fetchProviders_frame (w : World) :
  form (page (final (fetchProviders w))) = form (page w)
  /\ results_innerHTML (page (final (fetchProviders w)))
     = results_innerHTML (page w)
  /\ resultCount_textContent (page (final (fetchProviders w)))
     = resultCount_textContent (page w)
  /\ network (final (fetchProviders w)) = network w
  /\ (log (final (fetchProviders w)) = (log w ++ [Fetch providers_url])%list
      \/ log (final (fetchProviders w))
         = (log w ++ [Fetch providers_url; ReadJson providers_url])%list)
  /\ (forall w', fetchProviders w = Thrown w' -> page w' = page w).
Proof.
  rewrite fetchProviders_run.
  destruct (network w providers_url) as [response|].
  - destruct (json response) as [[trails|providers]|]; simpl;
      repeat split; auto; intros w' H; inversion H; reflexivity.
  - simpl. repeat split; auto. intros w' H. inversion H. reflexivity.
Qed.

(** ** The empty query string *)

Lemma toString_empty (params : t) : toString params = "" <-> params = [].
Proof.
  split; [|intros ->; reflexivity].
  destruct params as [|e rest]; [reflexivity|]. intros H. exfalso.
  assert (truthy (toString (e :: rest)) = true) as Ht.
  { unfold toString. destruct rest as [|e' rest].
    - apply truthy_serialize_tuple.
    - change (String.concat "&" (map serialize_tuple (e :: e' :: rest)))
        with (serialize_tuple e ++ "&"
              ++ String.concat "&" (map serialize_tuple (e' :: rest))).
      rewrite truthy_app, truthy_serialize_tuple. reflexivity. }
  rewrite H in Ht. discriminate.
Qed.

Lemma set_not_empty (p : t) (k v : string) : set p k v <> [].
Proof. destruct p as [|q rest]; simpl; [|destruct (named k q)]; discriminate. Qed.

Lemma add_field_empty (p : t) (e : string * string) :
  add_field p e = [] <-> p = [] /\ forwarded e = false.
Proof.
  destruct e as [n v]. unfold add_field, forwarded; simpl.
  destruct (String.eqb n "region"); simpl; [tauto|].
  destruct (truthy v); [|tauto].
  split; [intros H; exfalso; exact (set_not_empty _ _ _ H)|].
  intros [_ H]. discriminate.
Qed.

Lemma loop_empty (data : FormData.t) (p : t) :
  fold_left add_field data p = []
  <-> p = [] /\ forall e, In e data -> forwarded e = false.
Proof.
  revert p. induction data as [|e rest IH]; intros p.
  - simpl. split; [intros ->; split; [reflexivity | intros e []] | tauto].
  - cbn [fold_left]. rewrite IH, add_field_empty. split.
    + intros [[Hp He] Hrest]. split; [exact Hp|].
      intros x [<-|Hx]; [exact He | exact (Hrest x Hx)].
    + intros [Hp H]. split; [split; [exact Hp|]|].
      * apply H. left. reflexivity.
      * intros x Hx. apply H. right. exact Hx.
Qed.

(** X17: the query string is empty exactly when the region branch has set
    no bound and the form has no non-empty field other than [region]; the
    trails request then goes to [/api/trails?]. *)
Theorem empty_query (w : World) :
  (query_of (form (page w)) = ""
   <-> region_params (form (page w)) = []
       /\ forall e, In e (form (page w)) -> forwarded e = false)
  /\ (query_of (form (page w)) = "" -> trails_url w = "/api/trails?").
Proof.
  split.
  - unfold query_of. rewrite toString_empty.
    unfold queryParams, FormData.entries. rewrite loop_empty. reflexivity.
  - intros H. unfold trails_url. rewrite H. reflexivity.
Qed.

(** ** Instances *)

(** An instance of [fetchTrails_ok_renders]: two trails. *)
Lemma fetchTrails_ok_renders_witness :
  network world_live (trails_url world_live)
  = Some (mkResponse 200 "OK"
            (Some (TrailArray [trail_allowed; trail_on_leash])))
  /\ ok (mkResponse 200 "OK"
           (Some (TrailArray [trail_allowed; trail_on_leash]))) = true
  /\ json (mkResponse 200 "OK"
             (Some (TrailArray [trail_allowed; trail_on_leash])))
     = Some (TrailArray [trail_allowed; trail_on_leash])
  /\ fetchTrails (fun _ _ => "") world_live
     = Returned tt
         (mkWorld
            (mkPage (form (page world_live))
               (cards (fun _ _ => "") [trail_allowed; trail_on_leash])
               (count_label (List.length [trail_allowed; trail_on_leash]))
               (providers_innerHTML (page world_live)))
            (network world_live)
            (log world_live
             ++ [Fetch (trails_url world_live);
                 ReadJson (trails_url world_live)])).
Proof.
  split; [reflexivity|]. split; [reflexivity|]. split; [reflexivity|].
  apply (fetchTrails_ok_renders (fun _ _ => "") world_live
           (mkResponse 200 "OK"
              (Some (TrailArray [trail_allowed; trail_on_leash])))
           [trail_allowed; trail_on_leash]); reflexivity.
Defined.

(** An instance of [fetchTrails_failure_keeps_page]: the request fails. *)
Lemma fetchTrails_failure_keeps_page_witness :
  (network world_down (trails_url world_down) = None
   \/ (exists response,
         network world_down (trails_url world_down) = Some response
         /\ ok response = true /\ json response = None))
  /\ exists w',
       fetchTrails (fun _ _ => "") world_down = Thrown w'
       /\ page w' = page world_down.
Proof.
  split; [left; reflexivity|].
  apply (fetchTrails_failure_keeps_page (fun _ _ => "") world_down).
  left. reflexivity.
Defined.


(** An instance of [fetches_commute]: both requests are answered. *)
Lemma fetches_commute_witness :
  fetchProviders world_live = Returned tt (final (fetchProviders world_live))
  /\ fetchTrails (fun _ _ => "") world_live
     = Returned tt (final (fetchTrails (fun _ _ => "") world_live))
  /\ exists w12 w21,
       (fetchProviders ;;; fetchTrails (fun _ _ => "")) world_live
       = Returned tt w12
       /\ (fetchTrails (fun _ _ => "") ;;; fetchProviders) world_live
          = Returned tt w21
       /\ page w12 = page w21
       /\ page w12
          = mkPage (form (page world_live))
              (results_innerHTML
                 (page (final (fetchTrails (fun _ _ => "") world_live))))
              (resultCount_textContent
                 (page (final (fetchTrails (fun _ _ => "") world_live))))
              (providers_innerHTML (page (final (fetchProviders world_live)))).
Proof.
  split; [reflexivity|]. split; [reflexivity|].
  apply (fetches_commute (fun _ _ => "") world_live
           (final (fetchProviders world_live))
           (final (fetchTrails (fun _ _ => "") world_live))); reflexivity.
Defined.

Example fetchTrails_garbled :
  fetchTrails (fun _ _ => "") world_garbled
  = Thrown (logged world_garbled
              [Fetch (trails_url world_garbled);
               ReadJson (trails_url world_garbled)]).
Proof. reflexivity. Qed.

Example query_of_symbols :
  query_of form_symbols = "note=a%26b%3Dc+d%2Be%25&dog=allowed"
  /\ parse (query_of form_symbols) = form_symbols.
Proof. split; reflexivity. Qed.
